(** * ZapAI DVM: a shallow embedding of the reply pipeline

    The development follows the JavaScript sources module by module:
    [circuitbreaker.js], [gemini.js], [ratelimiter.js], [zapdb.js],
    [database.js] and [bot.js].  Asynchronous methods are modelled as
    state-passing functions; every reading of the wall clock, every call
    to the remote AI, to the signer and to [Math.random] is an explicit
    input.  Logging is omitted throughout. *)

From Stdlib Require Import ZArith QArith Qround Lia Bool List Ascii String.
From stdpp Require Import base option list gmap strings.

Set Warnings "-register-all".

Open Scope string_scope.
Open Scope Z_scope.

(** ** JavaScript promises that settle with a value or an error *)

Inductive outcome (A : Type) : Type :=
| Resolved (a : A)
| Rejected (e : string).

Arguments Resolved {A} a.
Arguments Rejected {A} e.

Definition is_resolved {A} (r : outcome A) : bool :=
  match r with Resolved _ => true | Rejected _ => false end.

(** [x || d] on an optional number: [undefined], [0] and [NaN] fall back
    to the default. *)
Definition or_default (o : option Z) (d : Z) : Z :=
  match o with
  | Some v => if v =? 0 then d else v
  | None => d
  end.

(** ** circuitbreaker.js *)

Module Breaker.

Inductive STATE := CLOSED | OPEN | HALF_OPEN.

#[global] Instance STATE_eq_dec : EqDecision STATE.
Proof. solve_decision. Defined.

Record Stats := mkStats {
  totalRequests : Z;
  totalFailures : Z;
  totalSuccesses : Z;
  totalRejected : Z;
  stateChanges : Z;
}.

Record CircuitBreaker := mkBreaker {
  failureThreshold : Z;
  successThreshold : Z;
  timeout : Z;
  resetTimeout : Z;
  state : STATE;
  failures : Z;
  successes : Z;
  nextAttempt : Z;
  stats : Stats;
}.

Record Options := mkOptions {
  opt_failureThreshold : option Z;
  opt_successThreshold : option Z;
  opt_timeout : option Z;
  opt_resetTimeout : option Z;
}.

(** [new CircuitBreaker(options)] at wall-clock time [now]. *)
Definition constructor (options : Options) (now : Z) : CircuitBreaker :=
  {| failureThreshold := or_default (opt_failureThreshold options) 5;
     successThreshold := or_default (opt_successThreshold options) 2;
     timeout := or_default (opt_timeout options) 60000;
     resetTimeout := or_default (opt_resetTimeout options) 30000;
     state := CLOSED;
     failures := 0;
     successes := 0;
     nextAttempt := now;
     stats := mkStats 0 0 0 0 0 |}.

Definition set_state (b : CircuitBreaker) (s : STATE) : CircuitBreaker :=
  mkBreaker (failureThreshold b) (successThreshold b) (timeout b) (resetTimeout b)
    s (failures b) (successes b) (nextAttempt b) (stats b).

Definition set_failures (b : CircuitBreaker) (n : Z) : CircuitBreaker :=
  mkBreaker (failureThreshold b) (successThreshold b) (timeout b) (resetTimeout b)
    (state b) n (successes b) (nextAttempt b) (stats b).

Definition set_successes (b : CircuitBreaker) (n : Z) : CircuitBreaker :=
  mkBreaker (failureThreshold b) (successThreshold b) (timeout b) (resetTimeout b)
    (state b) (failures b) n (nextAttempt b) (stats b).

Definition set_nextAttempt (b : CircuitBreaker) (t : Z) : CircuitBreaker :=
  mkBreaker (failureThreshold b) (successThreshold b) (timeout b) (resetTimeout b)
    (state b) (failures b) (successes b) t (stats b).

Definition set_stats (b : CircuitBreaker) (s : Stats) : CircuitBreaker :=
  mkBreaker (failureThreshold b) (successThreshold b) (timeout b) (resetTimeout b)
    (state b) (failures b) (successes b) (nextAttempt b) s.

Definition bump_requests (s : Stats) : Stats :=
  mkStats (totalRequests s + 1) (totalFailures s) (totalSuccesses s) (totalRejected s) (stateChanges s).
Definition bump_failures (s : Stats) : Stats :=
  mkStats (totalRequests s) (totalFailures s + 1) (totalSuccesses s) (totalRejected s) (stateChanges s).
Definition bump_successes (s : Stats) : Stats :=
  mkStats (totalRequests s) (totalFailures s) (totalSuccesses s + 1) (totalRejected s) (stateChanges s).
Definition bump_rejected (s : Stats) : Stats :=
  mkStats (totalRequests s) (totalFailures s) (totalSuccesses s) (totalRejected s + 1) (stateChanges s).
Definition bump_changes (s : Stats) : Stats :=
  mkStats (totalRequests s) (totalFailures s) (totalSuccesses s) (totalRejected s) (stateChanges s + 1).

(** [open()]: block requests; [now] is the clock reading inside the call. *)
Definition open (b : CircuitBreaker) (now : Z) : CircuitBreaker :=
  match state b with
  | OPEN => b
  | _ =>
      set_stats
        (set_nextAttempt (set_state b OPEN) (now + resetTimeout b))
        (bump_changes (stats b))
  end.

(** [close()]: allow requests again. *)
Definition close (b : CircuitBreaker) : CircuitBreaker :=
  match state b with
  | CLOSED => b
  | _ =>
      set_stats
        (set_successes (set_failures (set_state b CLOSED) 0) 0)
        (bump_changes (stats b))
  end.

Definition onSuccess (b : CircuitBreaker) : CircuitBreaker :=
  let b1 := set_stats (set_failures b 0) (bump_successes (stats b)) in
  match state b1 with
  | HALF_OPEN =>
      let b2 := set_successes b1 (successes b1 + 1) in
      if successThreshold b2 <=? successes b2 then close b2 else b2
  | _ => b1
  end.

Definition onFailure (b : CircuitBreaker) (now : Z) : CircuitBreaker :=
  let b1 :=
    set_stats (set_successes (set_failures b (failures b + 1)) 0)
      (bump_failures (stats b)) in
  if failureThreshold b1 <=? failures b1 then open b1 now else b1.

Definition reset (b : CircuitBreaker) : CircuitBreaker := close b.

Definition timeout_error : string := "Circuit breaker timeout".
Definition open_error : string :=
  "Service temporarily unavailable. Circuit breaker is open.".

Section Execute.
(** The breaker wraps calls that act on some outside world [W]; the wall
    clock is read off the world. *)
Context {W A : Type}.
Variable clock : W -> Z.

(** The wrapped function, started in a world and raced against a timer of
    the given length: it yields the world in which the race settles and
    either the function's own settlement or [None] when the timer fired
    first. *)
Definition task : Type := Z -> W -> W * option (outcome A).

(** The caller-supplied fallback; it may itself throw. *)
Definition handler : Type := W -> W * outcome A.

Definition executeWithTimeout (fn : task) (timeout : Z) (w : W) : W * outcome A :=
  match fn timeout w with
  | (w', Some r) => (w', r)
  | (w', None) => (w', Rejected timeout_error)
  end.

(** The check at the head of [execute]: [inr] lets the call through (with
    the state moved to HALF_OPEN when the reset delay has elapsed), [inl]
    rejects it. *)
Definition entry_check (b : CircuitBreaker) (now : Z) : CircuitBreaker + CircuitBreaker :=
  match state b with
  | OPEN =>
      if now <? nextAttempt b
      then inl (set_stats b (bump_rejected (stats b)))
      else inr (set_stats (set_state b HALF_OPEN) (bump_changes (stats b)))
  | _ => inr b
  end.

Definition execute (b : CircuitBreaker) (fn : task) (fallback : option handler) (w : W)
  : CircuitBreaker * W * outcome A :=
  let b0 := set_stats b (bump_requests (stats b)) in
  match entry_check b0 (clock w) with
  | inl b1 =>
      match fallback with
      | Some fb => let '(w', r) := fb w in (b1, w', r)
      | None => (b1, w, Rejected open_error)
      end
  | inr b1 =>
      match executeWithTimeout fn (timeout b1) w with
      | (w1, Resolved a) => (onSuccess b1, w1, Resolved a)
      | (w1, Rejected e) =>
          let b2 := onFailure b1 (clock w1) in
          match fallback with
          | Some fb => let '(w2, r) := fb w1 in (b2, w2, r)
          | None => (b2, w1, Rejected e)
          end
      end
  end.

End Execute.

End Breaker.

(** ** gemini.js: the AI client around the breaker *)

Module Gemini.
Import Breaker.

Record Stats := mkStats {
  requests : Z;
  successful : Z;
  failed : Z;
  fallbacks : Z;
}.

(** What the client acts on: its own counters, the wall clock, the number
    of requests sent to the remote model so far, the delays slept, and the
    number of [Math.random] draws. *)
Record World := mkWorld {
  stats : Stats;
  time : Z;
  remote_calls : nat;
  slept : list Z;
  draws : nat;
}.

Definition clock (w : World) : Z := time w.

Definition set_time (w : World) (t : Z) : World :=
  mkWorld (stats w) t (remote_calls w) (slept w) (draws w).
Definition set_stats (w : World) (s : Stats) : World :=
  mkWorld s (time w) (remote_calls w) (slept w) (draws w).

(** [await new Promise(resolve => setTimeout(resolve, ms))] *)
Definition sleep (ms : Z) (w : World) : World :=
  mkWorld (stats w) (time w + ms) (remote_calls w) (slept w ++ [ms])%list (draws w).

Definition fallback_strings : list string :=
  [ "I'm currently experiencing high demand. Please try again in a moment.";
    "My AI service is temporarily busy. I'll be back shortly!";
    "I'm processing many requests right now. Please wait a moment and try again." ].

Section Client.
Context {Request : Type}.
(** The remote model: for a request and the number of earlier calls, either
    it never answers ([None]) or it settles after some milliseconds. *)
Variable remote : Request -> nat -> option (outcome string * Z).
(** [Math.floor(Math.random() * 3)] at the n-th draw. *)
Variable random_index : nat -> nat.

Definition pick_fallback (w : World) : World * string :=
  (mkWorld (stats w) (time w) (remote_calls w) (slept w) (S (draws w)),
   nth (random_index (draws w) mod 3) fallback_strings "").

(** [_generateResponseInternal] raced against the breaker's timer.  The
    chat-session cache, the primer and the optional memory summary only
    shape what is sent, so [remote] stands for the whole exchange with the
    model; [stats.successful] is bumped when it answers in time.  What the
    call still does after the timer has fired is not followed. *)
Definition _generateResponseInternal (req : Request) : @task World string :=
  fun timeout w =>
    let w1 := mkWorld (stats w) (time w) (S (remote_calls w)) (slept w) (draws w) in
    match remote req (remote_calls w) with
    | None => (set_time w1 (time w + timeout), None)
    | Some (r, d) =>
        if d <? timeout
        then
          let w2 :=
            match r with
            | Resolved _ =>
                set_stats w1 (mkStats (requests (stats w1)) (successful (stats w1) + 1)
                                      (failed (stats w1)) (fallbacks (stats w1)))
            | Rejected _ => w1
            end in
          (set_time w2 (time w + d), Some r)
        else (set_time w1 (time w + timeout), None)
    end.

(** The fallback closure handed to the breaker. *)
Definition breaker_fallback : @handler World string :=
  fun w =>
    let w1 := set_stats w (mkStats (requests (stats w)) (successful (stats w))
                                   (failed (stats w)) (fallbacks (stats w) + 1)) in
    let '(w2, s) := pick_fallback w1 in
    (w2, Resolved s).

Definition maxRetries : Z := 2.

Definition backoffDelay (attempt : Z) : Z := Z.min (1000 * 2 ^ (attempt - 1)) 5000.

(** The body of the [for (attempt = 0; attempt <= maxRetries; attempt++)]
    loop; [fuel] counts the iterations left.  [None] stands for falling
    out of the loop without a [return]. *)
Fixpoint attempts_from (fuel : nat) (attempt : Z) (req : Request)
    (b : CircuitBreaker) (w : World) : CircuitBreaker * World * option string :=
  match fuel with
  | O => (b, w, None)
  | S fuel' =>
      let w1 := if 0 <? attempt then sleep (backoffDelay attempt) w else w in
      match execute clock b (_generateResponseInternal req) (Some breaker_fallback) w1 with
      | (b', w2, Resolved answer) => (b', w2, Some answer)
      | (b', w2, Rejected _) =>
          if attempt =? maxRetries
          then
            let w3 := set_stats w2 (mkStats (requests (stats w2)) (successful (stats w2))
                                            (failed (stats w2) + 1) (fallbacks (stats w2))) in
            let '(w4, s) := pick_fallback w3 in
            (b', w4, Some s)
          else attempts_from fuel' (attempt + 1) req b' w2
      end
  end.

Definition generateResponse (req : Request) (b : CircuitBreaker) (w : World)
  : CircuitBreaker * World * option string :=
  let w0 := set_stats w (mkStats (requests (stats w) + 1) (successful (stats w))
                                 (failed (stats w)) (fallbacks (stats w))) in
  attempts_from (Z.to_nat (maxRetries + 1)) 0 req b w0.

End Client.

(** The breaker as the client's constructor configures it. *)
Definition new_breaker (now : Z) : CircuitBreaker :=
  constructor (mkOptions (Some 3) (Some 1) (Some 60000) (Some 10000)) now.

End Gemini.

(** ** ratelimiter.js *)

Module RateLimiter.

(** Token counts are exact rationals; the source holds them in doubles. *)
Record Bucket := mkBucket {
  tokens : Q;
  lastRefill : Z;
}.

Record RateLimiter := mkLimiter {
  maxTokens : Q;
  refillRate : Q;
  windowMs : Z;
  buckets : gmap string Bucket;
  globalBucket : Bucket;
}.

Record Result := mkResult {
  allowed : bool;
  reason : option string;
  retryAfter : option Z;
}.

(** [Math.min] *)
Definition Qmin' (a b : Q) : Q := if Qle_bool a b then a else b.

(** [x || d] on an optional rate or capacity. *)
Definition q_or_default (o : option Q) (d : Q) : Q :=
  match o with
  | Some v => if Qeq_bool v 0 then d else v
  | None => d
  end.

(** [new RateLimiter(options)] at wall-clock time [now]. *)
Definition constructor (maxTokens refillRate : option Q) (windowMs : option Z) (now : Z)
  : RateLimiter :=
  let capacity := q_or_default maxTokens 100 in
  mkLimiter capacity (q_or_default refillRate 10) (or_default windowMs 60000) ∅
    (mkBucket capacity now).

(** [refillBucket]: lazy refill from the elapsed wall-clock time. *)
Definition refillBucket (rl : RateLimiter) (bucket : Bucket) (now : Z) : Bucket :=
  let timePassed := now - lastRefill bucket in
  let tokensToAdd := ((inject_Z timePassed / inject_Z 1000) * refillRate rl)%Q in
  mkBucket (Qmin' (maxTokens rl) (tokens bucket + tokensToAdd)%Q) now.

(** [getRetryAfter]: the division and [Math.ceil] are taken on exact
    rationals, where the source computes on doubles. *)
Definition getRetryAfter (rl : RateLimiter) (bucket : Bucket) : Z :=
  let tokensNeeded := (1 - tokens bucket)%Q in
  let secondsToWait := Qceiling (tokensNeeded / refillRate rl)%Q in
  Z.max 1 secondsToWait.

Definition set_global (rl : RateLimiter) (g : Bucket) : RateLimiter :=
  mkLimiter (maxTokens rl) (refillRate rl) (windowMs rl) (buckets rl) g.

Definition set_bucket (rl : RateLimiter) (userId : string) (bk : Bucket) : RateLimiter :=
  mkLimiter (maxTokens rl) (refillRate rl) (windowMs rl) (<[userId := bk]> (buckets rl)) (globalBucket rl).

Definition checkGlobalLimit (rl : RateLimiter) (cost : Q) (now : Z) : RateLimiter * bool :=
  let g := refillBucket rl (globalBucket rl) now in
  if Qle_bool cost (tokens g)
  then (set_global rl (mkBucket (tokens g - cost)%Q (lastRefill g)), true)
  else (set_global rl g, false).

(** [getUserBucket]: the bucket is created full on first use, then
    refilled in place. *)
Definition getUserBucket (rl : RateLimiter) (userId : string) (now : Z) : RateLimiter * Bucket :=
  let bucket0 :=
    match buckets rl !! userId with
    | Some bk => bk
    | None => mkBucket (maxTokens rl) now
    end in
  let bucket := refillBucket rl bucket0 now in
  (set_bucket rl userId bucket, bucket).

Definition global_reason : string := "Global rate limit exceeded. Please try again later.".
Definition user_reason : string := "Rate limit exceeded. Please wait before sending more messages.".

(** [checkLimit(userId, cost)]; the method is synchronous up to its
    return, so one clock reading [now] serves all its [Date.now()]. *)
Definition checkLimit (rl : RateLimiter) (userId : string) (cost : Q) (now : Z)
  : RateLimiter * Result :=
  let '(rl1, ok) := checkGlobalLimit rl cost now in
  if negb ok
  then (rl1, mkResult false (Some global_reason) (Some (getRetryAfter rl1 (globalBucket rl1))))
  else
    let '(rl2, bucket) := getUserBucket rl1 userId now in
    if Qle_bool cost (tokens bucket)
    then (set_bucket rl2 userId (mkBucket (tokens bucket - cost)%Q (lastRefill bucket)),
          mkResult true None None)
    else (rl2, mkResult false (Some user_reason) (Some (getRetryAfter rl2 bucket))).

(** [cleanupOldBuckets]: drop the buckets idle for more than an hour. *)
Definition cleanupOldBuckets (rl : RateLimiter) (now : Z) : RateLimiter :=
  mkLimiter (maxTokens rl) (refillRate rl) (windowMs rl)
    (filter (fun kv => negb (3600000 <? now - lastRefill (snd kv)) = true) (buckets rl))
    (globalBucket rl).

End RateLimiter.

(** ** JavaScript values used by the bot *)

Module JS.

(** Numbers: the integers that a double holds exactly, and [NaN].  A
    double holds every integer up to 2^53 in magnitude; sums and
    differences are taken within that range, where they are exact.
    Balances are whole numbers of sats, far below it. *)
Inductive number := NaN | Num (z : Z).

Definition num_add (a b : number) : number :=
  match a, b with Num x, Num y => Num (x + y) | _, _ => NaN end.
Definition num_sub (a b : number) : number :=
  match a, b with Num x, Num y => Num (x - y) | _, _ => NaN end.
(** [a < b]: false as soon as one side is [NaN]. *)
Definition num_lt (a b : number) : bool :=
  match a, b with Num x, Num y => x <? y | _, _ => false end.
(** [a === b] on numbers. *)
Definition num_eq (a b : number) : bool :=
  match a, b with Num x, Num y => x =? y | _, _ => false end.
Definition num_truthy (a : number) : bool :=
  match a with Num x => negb (x =? 0) | NaN => false end.
(** [a || 0] *)
Definition num_or_zero (a : number) : number := if num_truthy a then a else Num 0.
(** [Math.floor(a / 1000)] *)
Definition floor_div_1000 (a : number) : number :=
  match a with Num x => Num (x / 1000) | NaN => NaN end.

(** Strings are handled on their ASCII range: [trim] and [split] cut at
    the ASCII white space (tab to carriage return, and space), and
    [toLowerCase] maps A-Z; the white space and the letters that
    JavaScript knows beyond code 127 are left as they are. *)
Definition is_space (c : ascii) : bool :=
  let n := nat_of_ascii c in
  ((9 <=? n) && (n <=? 13))%nat || (n =? 32)%nat.

Definition lower_char (c : ascii) : ascii :=
  let n := nat_of_ascii c in
  if ((65 <=? n) && (n <=? 90))%nat then ascii_of_nat (n + 32) else c.

Fixpoint toLowerCase (s : string) : string :=
  match s with
  | EmptyString => EmptyString
  | String c r => String (lower_char c) (toLowerCase r)
  end.

Fixpoint trimStart (s : string) : string :=
  match s with
  | String c r => if is_space c then trimStart r else s
  | EmptyString => EmptyString
  end.

Fixpoint rev_string (s acc : string) : string :=
  match s with
  | EmptyString => acc
  | String c r => rev_string r (String c acc)
  end.

Definition trimEnd (s : string) : string :=
  rev_string (trimStart (rev_string s "")) "".

Definition trim (s : string) : string := trimEnd (trimStart s).

Definition str_length (s : string) : Z := Z.of_nat (String.length s).

Fixpoint startsWith (p s : string) : bool :=
  match p, s with
  | EmptyString, _ => true
  | String a p', String b s' => Ascii.eqb a b && startsWith p' s'
  | String _ _, EmptyString => false
  end.

(** [s.includes(p)] *)
Fixpoint includes (s p : string) : bool :=
  startsWith p s ||
  match s with
  | EmptyString => false
  | String _ r => includes r p
  end.

(** [s.endsWith(p)] *)
Definition endsWith (s p : string) : bool :=
  startsWith (rev_string p "") (rev_string s "").

(** [s.slice(0, n)] *)
Fixpoint take_chars (n : nat) (s : string) : string :=
  match n, s with
  | S n', String c r => String c (take_chars n' r)
  | _, _ => EmptyString
  end.

(** [s.split(/\s+/)]: cut at every maximal run of white space; a run at
    either end leaves an empty first or last piece. *)
Fixpoint split_ws_from (s cur : string) (in_gap : bool) : list string :=
  match s with
  | EmptyString => [rev_string cur ""]
  | String c r =>
      if is_space c
      then if in_gap then split_ws_from r cur true
           else rev_string cur "" :: split_ws_from r "" true
      else split_ws_from r (String c cur) false
  end.

Definition split_ws (s : string) : list string := split_ws_from s "" false.

(** Digits of [parseInt]. *)
Definition digit_value (radix : Z) (c : ascii) : option Z :=
  let n := Z.of_nat (nat_of_ascii c) in
  let v :=
    if (48 <=? n) && (n <=? 57) then Some (n - 48)
    else if (97 <=? n) && (n <=? 122) then Some (n - 87)
    else if (65 <=? n) && (n <=? 90) then Some (n - 55)
    else None in
  match v with
  | Some d => if d <? radix then Some d else None
  | None => None
  end.

Fixpoint read_digits (radix : Z) (s : string) (acc : option Z) : option Z :=
  match s with
  | EmptyString => acc
  | String c r =>
      match digit_value radix c with
      | Some d => read_digits radix r (Some (match acc with Some a => a * radix + d | None => d end))
      | None => acc
      end
  end.

(** [parseInt(s)] without a radix: leading white space, an optional sign,
    an optional [0x] prefix, then the longest run of digits; [NaN] when
    there is none. *)
Definition parseInt (s : string) : number :=
  let s1 := trimStart s in
  let '(negative, s2) :=
    match s1 with
    | String "-" r => (true, r)
    | String "+" r => (false, r)
    | _ => (false, s1)
    end in
  let '(radix, s3) :=
    if startsWith "0x" s2 || startsWith "0X" s2
    then (16, String.substring 2 (String.length s2 - 2) s2)
    else (10, s2) in
  match read_digits radix s3 None with
  | Some v => Num (if negative then - v else v)
  | None => NaN
  end.

(** Parsed JSON; numbers are integers below 10^21 in magnitude, which
    [String] prints in full, digit by digit (from 10^21 on it switches
    to the exponent form). *)
Inductive JValue :=
| JNull
| JBool (b : bool)
| JNumber (z : Z)
| JString (s : string)
| JArray (items : list JValue)
| JObject (fields : list (string * JValue)).

Definition truthy (v : JValue) : bool :=
  match v with
  | JNull => false
  | JBool b => b
  | JNumber z => negb (z =? 0)
  | JString s => negb (String.eqb s "")
  | JArray _ | JObject _ => true
  end.

(** [v.name] on a parsed value: [None] is [undefined]. *)
Fixpoint assoc (name : string) (fields : list (string * JValue)) : option JValue :=
  match fields with
  | [] => None
  | (k, v) :: rest => if String.eqb k name then Some v else assoc name rest
  end.

Definition get_field (v : JValue) (name : string) : option JValue :=
  match v with
  | JObject fields => assoc name fields
  | _ => None
  end.

Definition join_comma (l : list string) : string := String.concat "," l.

(** [String(v)], for numbers below 10^21 in magnitude. *)
Fixpoint toString (v : JValue) : string :=
  match v with
  | JNull => "null"
  | JBool true => "true"
  | JBool false => "false"
  | JNumber z => pretty.pretty z
  | JString s => s
  | JArray items =>
      join_comma (List.map (fun x => match x with JNull => "" | _ => toString x end) items)
  | JObject _ => "[object Object]"
  end.

End JS.

(** ** zapdb.js: receipts and balances *)

Module ZapDb.
Import JS.

Record ZapRecord := mkZap {
  zr_sender : string;
  zr_amount : number;
  zr_timestamp : Z;
  zr_zapRequest : option JValue;
  zr_zapReceipt : option string;
  zr_bolt11 : option string;
  zr_description : option string;
}.

Record BalanceRecord := mkBalance {
  br_pubkey : string;
  balance : number;
  lastUpdated : Z;
}.

(** The store holds two families of keys, [zap:<sender>:<ms>] and
    [balance:<pubkey>]; their prefixes keep them apart, so each family is
    a map of its own, still indexed by the full key. *)
Record ZapDatabase := mkDb {
  zaps : gmap string ZapRecord;
  balances : gmap string BalanceRecord;
}.

Definition empty : ZapDatabase := mkDb ∅ ∅.

(** The argument of [saveZap]. *)
Record ZapData := mkZapData {
  zd_sender : string;
  zd_amount : number;
  zd_zapRequest : option JValue;
  zd_zapReceipt : option string;
  zd_bolt11 : option string;
  zd_description : option string;
}.

Definition balanceKey (pubkey : string) : string := "balance:" ++ pubkey.
Definition zapKey (sender : string) (timestamp : Z) : string :=
  "zap:" ++ sender ++ ":" ++ pretty.pretty timestamp.

(** [s || null] on an optional string. *)
Definition str_or_null (o : option string) : option string :=
  match o with
  | Some s => if String.eqb s "" then None else Some s
  | None => None
  end.

Definition val_or_null (o : option JValue) : option JValue :=
  match o with
  | Some v => if truthy v then Some v else None
  | None => None
  end.

Definition addToBalance (db : ZapDatabase) (pubkey : string) (amount : number) (now : Z)
  : ZapDatabase * number :=
  let current :=
    match balances db !! balanceKey pubkey with
    | Some r => balance r
    | None => Num 0
    end in
  let newBalance := mkBalance pubkey (num_add (num_or_zero current) amount) now in
  (mkDb (zaps db) (<[balanceKey pubkey := newBalance]> (balances db)), balance newBalance).

Definition getBalance (db : ZapDatabase) (pubkey : string) : number :=
  match balances db !! balanceKey pubkey with
  | None => Num 0
  | Some r => num_or_zero (balance r)
  end.

(** [saveZap]: [now] is the clock reading that names the record, [now']
    the later one that stamps the balance. *)
Definition saveZap (db : ZapDatabase) (zapData : ZapData) (now now' : Z)
  : ZapDatabase * string :=
  let zapId := zapKey (zd_sender zapData) now in
  let rec :=
    mkZap (zd_sender zapData) (zd_amount zapData) now
      (val_or_null (zd_zapRequest zapData))
      (str_or_null (zd_zapReceipt zapData))
      (str_or_null (zd_bolt11 zapData))
      (str_or_null (zd_description zapData)) in
  let db1 := mkDb (<[zapId := rec]> (zaps db)) (balances db) in
  let '(db2, _) := addToBalance db1 (zd_sender zapData) (zd_amount zapData) now' in
  (db2, zapId).

(** [deductFromBalance]: [None] is the [false] returned on insufficient
    balance. *)
Definition deductFromBalance (db : ZapDatabase) (pubkey : string) (amount : number) (now : Z)
  : ZapDatabase * option number :=
  let current :=
    match balances db !! balanceKey pubkey with
    | Some r => balance r
    | None => Num 0
    end in
  if num_lt current amount
  then (db, None)
  else
    let newBalance := mkBalance pubkey (num_sub current amount) now in
    (mkDb (zaps db) (<[balanceKey pubkey := newBalance]> (balances db)), Some (balance newBalance)).

End ZapDb.

(** ** database.js: sessions, message logs and processed-event markers *)

Module Database.

Definition DEFAULT_HISTORY_LIMIT : nat := 50%nat.
Definition DM_KIND : Z := 4.
Definition PUBLIC_KIND : Z := 1.

Definition sanitizePubkey (pubkey : string) : string :=
  JS.toLowerCase (JS.trim pubkey).

Definition sanitizeSessionId (sessionId : option string) : string :=
  match sessionId with
  | None => ""
  | Some s => if String.eqb s "" then "" else JS.take_chars 120 (JS.trim s)
  end.

(** The profile snapshot kept with a message. *)
Record UserMetadata := mkUserMetadata {
  um_name : option string;
  um_displayName : option string;
  um_about : option string;
  um_nip05 : option string;
}.

Record SessionMeta := mkSessionMeta {
  sm_pubkey : string;
  sm_sessionId : string;
  createdAt : Z;
  lastMessageAt : Z;
  messageCount : Z;
  origin : option string;
  label : option string;
  lastTouchedAt : option Z;
}.

Record MessageRecord := mkMessageRecord {
  mr_pubkey : string;
  mr_sessionId : string;
  message : string;
  isFromBot : bool;
  timestamp : Z;
  messageType : string;
  replyTo : option string;
  eventId : option string;
  eventKind : option Z;
  userMetadata : option UserMetadata;
}.

Record Marker := mkMarker {
  mk_sessionId : string;
  mk_timestamp : Z;
  mk_processed : bool;
}.

(** The four key families of the store, each indexed by its full key. *)
Record Db := mkDb {
  metas : gmap string SessionMeta;
  logs : gmap string (list MessageRecord);
  userSessions : gmap string (list string);
  processedEvents : gmap string Marker;
}.

Definition empty : Db := mkDb ∅ ∅ ∅ ∅.

Definition metaKey (pubkey sessionId : string) : string :=
  "session:meta:" ++ pubkey ++ ":" ++ sessionId.
Definition messagesKey (pubkey sessionId : string) : string :=
  "session:messages:" ++ pubkey ++ ":" ++ sessionId.
Definition userSessionsKey (pubkey : string) : string := "user:sessions:" ++ pubkey.
Definition eventKey (eventId : string) : string := "event:processed:" ++ eventId.

Definition nonempty (o : option string) : option string := ZapDb.str_or_null o.

Definition str_truthy (o : option string) : bool :=
  match nonempty o with Some _ => true | None => false end.

(** The [metadata] argument of [ensureSession]. *)
Record SessionOptions := mkSessionOptions {
  so_source : option string;
  so_label : option string;
  so_touch : option bool;
  so_fallbackId : option string;
}.

Record EnsureResult := mkEnsureResult {
  er_sessionId : string;
  isNew : bool;
  er_session : SessionMeta;
}.

Definition invalid_pubkey : string := "Valid pubkey is required".

Definition opt_str_eqb (a b : option string) : bool :=
  match a, b with
  | Some x, Some y => String.eqb x y
  | None, None => true
  | _, _ => false
  end.

(** [ensureSession] reads the clock twice: [now_id] names a session that
    was given no identifier, [now] (read after the metadata lookup) stamps
    the session. *)
Definition ensureSession (db : Db) (pubkey : string) (requestedSessionId : option string)
    (metadata : SessionOptions) (now_id now : Z) (uuid : string) : Db * outcome EnsureResult :=
  let normalizedPubkey := sanitizePubkey pubkey in
  if String.eqb normalizedPubkey "" then (db, Rejected invalid_pubkey)
  else
    let sessionId :=
      let s := sanitizeSessionId requestedSessionId in
      if negb (String.eqb s "") then s
      else match nonempty (so_fallbackId metadata) with
           | Some f => f
           | None => "session-" ++ pretty.pretty now_id ++ "-" ++ JS.take_chars 8 uuid
           end in
    let mKey := metaKey normalizedPubkey sessionId in
    let msgKey := messagesKey normalizedPubkey sessionId in
    let usKey := userSessionsKey normalizedPubkey in
    match metas db !! mKey with
    | None =>
        let sessionMeta :=
          mkSessionMeta normalizedPubkey sessionId now now 0
            (nonempty (so_source metadata)) (nonempty (so_label metadata)) None in
        let sessions := default [] (userSessions db !! usKey) in
        let userSessions' :=
          if existsb (String.eqb sessionId) sessions
          then userSessions db
          else <[usKey := (sessions ++ [sessionId])%list]> (userSessions db) in
        (mkDb (<[mKey := sessionMeta]> (metas db)) (<[msgKey := []]> (logs db))
              userSessions' (processedEvents db),
         Resolved (mkEnsureResult sessionId true sessionMeta))
    | Some sessionMeta =>
        let '(m1, dirty1) :=
          if str_truthy (so_source metadata) && negb (str_truthy (origin sessionMeta))
          then (mkSessionMeta (sm_pubkey sessionMeta) (sm_sessionId sessionMeta)
                  (createdAt sessionMeta) (lastMessageAt sessionMeta) (messageCount sessionMeta)
                  (so_source metadata) (label sessionMeta) (lastTouchedAt sessionMeta), true)
          else (sessionMeta, false) in
        let '(m2, dirty2) :=
          if str_truthy (so_label metadata) && negb (opt_str_eqb (label m1) (so_label metadata))
          then (mkSessionMeta (sm_pubkey m1) (sm_sessionId m1)
                  (createdAt m1) (lastMessageAt m1) (messageCount m1)
                  (origin m1) (so_label metadata) (lastTouchedAt m1), true)
          else (m1, dirty1) in
        let '(m3, dirty3) :=
          match so_touch metadata with
          | Some false => (m2, dirty2)
          | _ => (mkSessionMeta (sm_pubkey m2) (sm_sessionId m2)
                    (createdAt m2) (lastMessageAt m2) (messageCount m2)
                    (origin m2) (label m2) (Some now), true)
          end in
        let db' :=
          if dirty3
          then mkDb (<[mKey := m3]> (metas db)) (logs db) (userSessions db) (processedEvents db)
          else db in
        (db', Resolved (mkEnsureResult sessionId false m3))
    end.

(** The [metadata] argument of [saveMessage]. *)
Record MessageOptions := mkMessageOptions {
  mo_timestamp : option Z;
  mo_eventId : option string;
  mo_sessionId : option string;
  mo_messageSource : option string;
  mo_eventKind : option Z;
  mo_sessionLabel : option string;
  mo_messageType : option string;
  mo_replyTo : option string;
  mo_userMetadata : option UserMetadata;
}.

Record SaveResult := mkSaveResult {
  duplicate : bool;
  sr_sessionId : string;
  sr_timestamp : Z;
  sr_messageCount : option Z;
}.

(** The clock readings and the random identifier one [saveMessage] call
    consumes: [now_save] is its own reading, [now_id] and [now_session]
    are the two readings of [ensureSession]. *)
Record SaveEnv := mkSaveEnv {
  now_save : Z;
  now_id : Z;
  now_session : Z;
  uuid : string;
}.

Definition kind_truthy (k : option Z) : option Z :=
  match k with
  | Some z => if z =? 0 then None else Some z
  | None => None
  end.

(** [messages.slice(-n)]: the last [n] elements, the whole array when it
    has fewer; [-0] is [0], so [slice(-0)] is a copy of the whole array. *)
Definition slice_last {A} (n : nat) (l : list A) : list A :=
  match n with
  | O => l
  | S _ => drop (length l - n) l
  end.
#[global] Arguments slice_last : simpl never.

Definition source_of (metadata : MessageOptions) : option string :=
  match nonempty (mo_messageSource metadata) with
  | Some s => Some s
  | None =>
      match mo_eventKind metadata with
      | Some k =>
          if k =? DM_KIND then Some "dm"
          else if k =? PUBLIC_KIND then Some "public"
          else if k =? 0 then None
          else Some ("kind-" ++ pretty.pretty k)
      | None => None
      end
  end.

Definition saveMessage (db : Db) (pubkey : string) (content : string) (fromBot : bool)
    (metadata : MessageOptions) (env : SaveEnv) : Db * outcome SaveResult :=
  let normalizedPubkey := sanitizePubkey pubkey in
  if String.eqb normalizedPubkey "" then (db, Rejected invalid_pubkey)
  else
    let ts := match mo_timestamp metadata with Some t => t | None => now_save env end in
    let dup :=
      match nonempty (mo_eventId metadata) with
      | Some eid => processedEvents db !! eventKey eid
      | None => None
      end in
    match dup with
    | Some isDuplicate =>
        (db, Resolved (mkSaveResult true (mk_sessionId isDuplicate) (mk_timestamp isDuplicate) None))
    | None =>
        match
          ensureSession db normalizedPubkey (mo_sessionId metadata)
            (mkSessionOptions (source_of metadata) (mo_sessionLabel metadata) (Some false) None)
            (now_id env) (now_session env) (uuid env)
        with
        | (db1, Rejected e) => (db1, Rejected e)
        | (db1, Resolved er) =>
            let sessionId := er_sessionId er in
            let messageRecord :=
              mkMessageRecord normalizedPubkey sessionId content fromBot ts
                (match nonempty (mo_messageType metadata) with
                 | Some t => t
                 | None => if fromBot then "response" else "question"
                 end)
                (nonempty (mo_replyTo metadata))
                (nonempty (mo_eventId metadata))
                (kind_truthy (mo_eventKind metadata))
                (mo_userMetadata metadata) in
            let msgKey := messagesKey normalizedPubkey sessionId in
            let pushed := (default [] (logs db1 !! msgKey) ++ [messageRecord])%list in
            let messages :=
              if (1000 <? length pushed)%nat then slice_last 1000 pushed else pushed in
            let logs2 := <[msgKey := messages]> (logs db1) in
            let processed2 :=
              match nonempty (mo_eventId metadata) with
              | Some eid => <[eventKey eid := mkMarker sessionId ts true]> (processedEvents db1)
              | None => processedEvents db1
              end in
            let mKey := metaKey normalizedPubkey sessionId in
            let metas2 :=
              match metas db1 !! mKey with
              | Some sessionMeta =>
                  <[mKey := mkSessionMeta (sm_pubkey sessionMeta) (sm_sessionId sessionMeta)
                              (createdAt sessionMeta) ts (Z.of_nat (length messages))
                              (origin sessionMeta) (label sessionMeta)
                              (lastTouchedAt sessionMeta)]> (metas db1)
              | None => metas db1
              end in
            (mkDb metas2 logs2 (userSessions db1) processed2,
             Resolved (mkSaveResult false sessionId ts (Some (Z.of_nat (length messages)))))
        end
    end.

(** What the history readers return for each stored message. *)
Record HistoryItem := mkHistoryItem {
  h_message : string;
  h_isFromBot : bool;
  h_timestamp : Z;
  h_messageType : string;
}.

Definition to_history (msg : MessageRecord) : HistoryItem :=
  mkHistoryItem (message msg) (isFromBot msg) (timestamp msg) (messageType msg).

Definition getConversationBySession (db : Db) (pubkey : string) (sessionId : option string)
    (limit : nat) : list HistoryItem :=
  let normalizedPubkey := sanitizePubkey pubkey in
  if String.eqb normalizedPubkey "" then []
  else
    let sanitizedSessionId := sanitizeSessionId sessionId in
    if String.eqb sanitizedSessionId "" then []
    else
      let messages := default [] (logs db !! messagesKey normalizedPubkey sanitizedSessionId) in
      let messages := if (limit <? length messages)%nat then slice_last limit messages else messages in
      List.map to_history messages.

(** [Array.prototype.sort] with [(a, b) => a.timestamp - b.timestamp]: a
    stable sort, here by insertion. *)
Fixpoint insert_by_timestamp (m : MessageRecord) (l : list MessageRecord) : list MessageRecord :=
  match l with
  | [] => [m]
  | x :: r => if timestamp m <? timestamp x then m :: l else x :: insert_by_timestamp m r
  end.

Definition sort_by_timestamp (l : list MessageRecord) : list MessageRecord :=
  fold_left (fun acc m => insert_by_timestamp m acc) l [].

Definition getConversation (db : Db) (pubkey : string) (limit : nat) : list HistoryItem :=
  let normalizedPubkey := sanitizePubkey pubkey in
  if String.eqb normalizedPubkey "" then []
  else
    let sessionIds := default [] (userSessions db !! userSessionsKey normalizedPubkey) in
    let allMessages :=
      List.concat
        (List.map (fun sid => default [] (logs db !! messagesKey normalizedPubkey sid)) sessionIds) in
    let allMessages := sort_by_timestamp allMessages in
    let allMessages :=
      if (limit <? length allMessages)%nat then slice_last limit allMessages else allMessages in
    List.map to_history allMessages.

End Database.

(** ** Regular expressions of the balance-intent classifier

    The handful of patterns the bot tests are matched by derivatives; the
    [i] flag compares characters after lower-casing. *)

Module Regex.

Inductive regex :=
| Never
| Eps
| Chr (c : ascii)
| OneOf (cs : list ascii)
| Space
| AnyChar
| Cat (r1 r2 : regex)
| Alt (r1 r2 : regex)
| Star (r : regex).

Fixpoint lit (s : string) : regex :=
  match s with
  | EmptyString => Eps
  | String c EmptyString => Chr c
  | String c r => Cat (Chr c) (lit r)
  end.

Definition plus (r : regex) : regex := Cat r (Star r).
Definition opt (r : regex) : regex := Alt r Eps.

Fixpoint nullable (r : regex) : bool :=
  match r with
  | Never | Chr _ | OneOf _ | Space | AnyChar => false
  | Eps | Star _ => true
  | Cat a b => nullable a && nullable b
  | Alt a b => nullable a || nullable b
  end.

Definition cat (a b : regex) : regex :=
  match a, b with
  | Never, _ | _, Never => Never
  | Eps, _ => b
  | _, _ => Cat a b
  end.

Definition alt (a b : regex) : regex :=
  match a, b with
  | Never, _ => b
  | _, Never => a
  | _, _ => Alt a b
  end.

Definition same_char (x y : ascii) : bool :=
  Ascii.eqb (JS.lower_char x) (JS.lower_char y).

Fixpoint deriv (x : ascii) (r : regex) : regex :=
  match r with
  | Never | Eps => Never
  | Chr c => if same_char c x then Eps else Never
  | OneOf cs => if existsb (same_char x) cs then Eps else Never
  | Space => if JS.is_space x then Eps else Never
  | AnyChar => Eps
  | Cat a b =>
      if nullable a then alt (cat (deriv x a) b) (deriv x b) else cat (deriv x a) b
  | Alt a b => alt (deriv x a) (deriv x b)
  | Star a => cat (deriv x a) (Star a)
  end.

(** The whole string is in the language: a pattern between [^] and [$]. *)
Fixpoint matches (r : regex) (s : string) : bool :=
  match s with
  | EmptyString => nullable r
  | String c rest => matches (deriv c r) rest
  end.

(** [pattern.test(s)] for a pattern without anchors. *)
Definition found_in (r : regex) (s : string) : bool :=
  matches (Cat (Star AnyChar) (Cat r (Star AnyChar))) s.

End Regex.

(** ** bot.js *)

Module Bot.
Import JS.

Record Event := mkEvent {
  id : string;
  pubkey : string;
  kind : Z;
  created_at : Z;
  tags : list (list string);
  content : string;
}.

(** *** Balance-intent classifier *)

Definition matrix := list (list Z).

(** [matrix[i][j]] *)
Definition cell (m : matrix) (i j : nat) : Z :=
  default 0 (m !! i ≫= (fun row => row !! j)).

(** [matrix[i][j] = v] *)
Definition set_cell (m : matrix) (i j : nat) (v : Z) : matrix :=
  alter (fun row => <[j := v]> row) i m.

Definition same_at (str1 : string) (i : nat) (str2 : string) (j : nat) : bool :=
  match String.get i str1, String.get j str2 with
  | Some a, Some b => Ascii.eqb a b
  | None, None => true
  | _, _ => false
  end.

Definition levenshteinDistance (str1 str2 : string) : Z :=
  let len1 := String.length str1 in
  let len2 := String.length str2 in
  let m0 : matrix := replicate (S len1) (replicate (S len2) 0) in
  let m1 := fold_left (fun m i => set_cell m i 0 (Z.of_nat i)) (seq 0 (S len1)) m0 in
  let m2 := fold_left (fun m j => set_cell m 0 j (Z.of_nat j)) (seq 0 (S len2)) m1 in
  let m3 :=
    fold_left
      (fun m i =>
         fold_left
           (fun m j =>
              let cost := if same_at str1 (i - 1) str2 (j - 1) then 0 else 1 in
              set_cell m i j
                (Z.min (Z.min (cell m (i - 1) j + 1) (cell m i (j - 1) + 1))
                       (cell m (i - 1) (j - 1) + cost)))
           (seq 1 len2) m)
      (seq 1 len1) m2 in
  cell m3 len1 len2.

Definition profileKeywords : list string :=
  ["identity"; "nip05"; "profile"; "name"; "who am i"; "about me"; "information about me"].

Definition targetWords : list string := ["balance"; "credit"; "wallet"; "sats"].

(** [Math.floor(target.length * 0.3)]; on the lengths 4, 6 and 7 of the
    target words the double product rounds down to the same integer as
    the exact one. *)
Definition maxDistance (target : string) : Z := (str_length target * 3) / 10.

Definition has_context (normalizedMsg : string) : bool :=
  includes normalizedMsg "my" ||
  includes normalizedMsg "check" ||
  includes normalizedMsg "show" ||
  includes normalizedMsg "what" ||
  includes normalizedMsg "how much" ||
  includes normalizedMsg "how many" ||
  endsWith normalizedMsg "?".

Import Regex.

Definition ws1 : regex := plus Space.
Definition qmark : regex := opt (Chr "?").
Definition alts (l : list regex) : regex := fold_right Alt Never l.
Definition eai : regex := OneOf ["e"; "a"; "i"]%char.
Definition sats_ : regex := Cat (lit "sat") (opt (Chr "s")).
Definition bcw : regex := alts [lit "balance"; lit "credit"; lit "wallet"].

(** The six patterns, in source order; [true] marks a pattern anchored on
    both sides. *)
Definition patterns : list (bool * regex) :=
  [ (true, Cat (lit "balance") qmark);
    (true, Cat (lit "my") (Cat ws1 (Cat (lit "balance") qmark)));
    (false, Cat (lit "how") (Cat ws1 (Cat (alts [lit "much"; lit "many"])
              (Cat ws1 (alts [sats_; lit "credit"; lit "balance"])))));
    (false, Cat (lit "check") (Cat ws1 (Cat (opt (Cat (lit "my") ws1)) bcw)));
    (false, Cat (lit "show") (Cat ws1 (Cat (opt (Cat (lit "my") ws1)) bcw)));
    (true, Cat (alts [Cat (lit "cr") (Cat eai (lit "dit"));
                      Cat (lit "wall") (Cat eai (Chr "t"));
                      sats_]) qmark) ].

Definition test (p : bool * regex) (s : string) : bool :=
  if fst p then matches (snd p) s else found_in (snd p) s.

(** The fuzzy pass over one word: [Some b] is the [return b] taken inside
    the loop over the targets, [None] means the loop ran out. *)
Fixpoint fuzzy_targets (normalizedMsg word : string) (nwords : nat) (targets : list string)
  : option bool :=
  match targets with
  | [] => None
  | target :: rest =>
      let distance := levenshteinDistance word target in
      if distance <=? maxDistance target
      then
        if has_context normalizedMsg then Some true
        else if (nwords =? 1)%nat && (distance <=? 1) then Some true
        else fuzzy_targets normalizedMsg word nwords rest
      else fuzzy_targets normalizedMsg word nwords rest
  end.

Fixpoint fuzzy_words (normalizedMsg : string) (nwords : nat) (words : list string)
  : option bool :=
  match words with
  | [] => None
  | word :: rest =>
      if (String.length word <? 3)%nat then fuzzy_words normalizedMsg nwords rest
      else
        match fuzzy_targets normalizedMsg word nwords targetWords with
        | Some b => Some b
        | None => fuzzy_words normalizedMsg nwords rest
        end
  end.

Definition isBalanceRequest (message : string) : bool :=
  if String.eqb message "" then false
  else
    let normalizedMsg := trim (toLowerCase message) in
    if existsb (includes normalizedMsg) profileKeywords then false
    else
      let words := split_ws normalizedMsg in
      match fuzzy_words normalizedMsg (length words) words with
      | Some b => b
      | None => existsb (fun p => test p normalizedMsg) patterns
      end.

(** *** Relay subscription loop *)

Inductive Frame :=
| EVENT (ev : Event)
| EOSE
| CLOSED (reason : string)
| OTHER.

(** How the stream of one subscription is left when no CLOSED frame cut
    it short: it ends, or reading it throws an error of the given name. *)
Inductive StreamEnd :=
| Ended
| Threw (name : string).

(** One pass through the [while] loop as the relay and the abort signal
    shape it: the frames received, how the stream ends, and what
    [signal.aborted] reads after the stream and after the backoff sleep. *)
Record Subscription := mkSubscription {
  frames : list Frame;
  ending : StreamEnd;
  abortedAfterStream : bool;
  abortedAfterSleep : bool;
}.

Record Supervisor := mkSupervisor {
  maxReconnectAttempts : Z;
  reconnectAttempts : gmap string Z;
  failedRelays : gset string;
  connected : gmap string bool;
}.

Inductive RelayEffect :=
| Subscribed (url : string)
| Handled (ev : Event) (url : string)
| Slept (ms : Z).

Definition attempts_of (sv : Supervisor) (relayUrl : string) : Z :=
  default 0 (reconnectAttempts sv !! relayUrl).

Definition set_attempts (sv : Supervisor) (relayUrl : string) (n : Z) : Supervisor :=
  mkSupervisor (maxReconnectAttempts sv) (<[relayUrl := n]> (reconnectAttempts sv))
    (failedRelays sv) (connected sv).

Definition mark_failed (sv : Supervisor) (relayUrl : string) : Supervisor :=
  mkSupervisor (maxReconnectAttempts sv) (reconnectAttempts sv)
    ({[relayUrl]} ∪ failedRelays sv) (<[relayUrl := false]> (connected sv)).

Definition reconnectDelay (attempts : Z) : Z := Z.min (5000 * 2 ^ attempts) 60000.

(** The [for await] loop over the frames: [true] in the result when a
    CLOSED frame broke out of it. *)
Fixpoint read_frames (relayUrl : string) (fs : list Frame) (sv : Supervisor)
  : Supervisor * list RelayEffect * bool :=
  match fs with
  | [] => (sv, [], false)
  | EVENT ev :: rest =>
      let '(sv', effs, closed) := read_frames relayUrl rest (set_attempts sv relayUrl 0) in
      (sv', Handled ev relayUrl :: effs, closed)
  | CLOSED _ :: _ => (sv, [], true)
  | _ :: rest => read_frames relayUrl rest sv
  end.

Inductive Next := Continue (aborted : bool) | Break.

(** One iteration of the [while (!signal.aborted)] loop, entered with the
    signal not aborted. *)
Definition iteration (relayUrl : string) (sub : Subscription) (sv : Supervisor)
  : Supervisor * list RelayEffect * Next :=
  if bool_decide (relayUrl ∈ failedRelays sv) then (sv, [], Break)
  else
    let '(sv1, effs, closed) := read_frames relayUrl (frames sub) sv in
    let effs := Subscribed relayUrl :: effs in
    let attempts := attempts_of sv1 relayUrl in
    match (if closed then Ended else ending sub) with
    | Ended =>
        if abortedAfterStream sub then (sv1, effs, Continue true)
        else if maxReconnectAttempts sv1 <=? attempts
        then (mark_failed sv1 relayUrl, effs, Break)
        else
          (set_attempts sv1 relayUrl (attempts + 1),
           (effs ++ [Slept (reconnectDelay attempts)])%list,
           Continue (abortedAfterSleep sub))
    | Threw name =>
        if String.eqb name "AbortError" then (sv1, effs, Break)
        else if maxReconnectAttempts sv1 <=? attempts
        then (mark_failed sv1 relayUrl, effs, Break)
        else if abortedAfterStream sub then (sv1, effs, Continue true)
        else
          (set_attempts sv1 relayUrl (attempts + 1),
           (effs ++ [Slept (reconnectDelay attempts)])%list,
           Continue (abortedAfterSleep sub))
    end.

Fixpoint loop (relayUrl : string) (subs : list Subscription) (aborted : bool) (sv : Supervisor)
  : Supervisor * list RelayEffect :=
  if aborted then (sv, [])
  else
    match subs with
    | [] => (sv, [])
    | sub :: rest =>
        match iteration relayUrl sub sv with
        | (sv', effs, Break) => (sv', effs)
        | (sv', effs, Continue aborted') =>
            let '(sv'', effs') := loop relayUrl rest aborted' sv' in
            (sv'', (effs ++ effs')%list)
        end
    end.

(** [listenToRelay]: [subs] scripts the successive subscriptions for as
    long as the run is followed. *)
Definition listenToRelay (relayUrl : string) (subs : list Subscription) (aborted : bool)
    (sv : Supervisor) : Supervisor * list RelayEffect :=
  let sv0 :=
    match reconnectAttempts sv !! relayUrl with
    | Some _ => sv
    | None => set_attempts sv relayUrl 0
    end in
  loop relayUrl subs aborted sv0.

Definition new_supervisor : Supervisor := mkSupervisor 5 ∅ ∅ ∅.

(** *** What the bot sends out *)

Inductive Purpose := Answer | BalanceInfo | InsufficientFunds | PaymentError | ErrorNotice.

Inductive Effect :=
| DM (why : Purpose) (recipient text : string) (session : option string)
| PublicReply (why : Purpose) (toEvent toAuthor text : string)
| BalanceResponse (owner : string) (balance : number)
| BalanceUpdate (owner : string) (balance amount : number)
| Debit (owner : string) (cost : Z).

Definition number_to_string (n : number) : string :=
  match n with
  | NaN => "NaN"
  | Num z => pretty.pretty z
  end.

(** [tags.find(tag => tag[0] === name)] *)
Definition find_tag (name : string) (tags : list (list string)) : option (list string) :=
  List.find (fun tag => match tag with h :: _ => String.eqb h name | [] => false end) tags.

(** [tag && tag[1]], when truthy *)
Definition tag_value (tag : option (list string)) : option string :=
  match tag with
  | Some t => ZapDb.str_or_null (t !! 1%nat)
  | None => None
  end.

(** *** Receipts (kind 9735) *)

Section Receipts.
(** [JSON.parse], [None] when it throws, and [JSON.stringify]. *)
Variable JSON_parse : string -> option JValue.
Variable JSON_stringify : JValue -> string.

Record Extracted := mkExtracted {
  ex_zapRequest : option JValue;
  ex_sender : string;
  ex_amount : number;
}.

Definition is_amount_tag (tag : JValue) : bool :=
  match tag with
  | JArray (JString h :: _) => String.eqb h "amount"
  | _ => false
  end.

(** The amount of the embedded request, in sats; [Num 0] when the tag is
    missing. *)
Definition request_amount (zapRequest : JValue) : number :=
  match get_field zapRequest "tags" with
  | Some (JArray items) =>
      match List.find is_amount_tag items with
      | Some (JArray (_ :: v :: _)) =>
          if truthy v then floor_div_1000 (parseInt (toString v)) else Num 0
      | _ => Num 0
      end
  | _ => Num 0
  end.

(** The [try] block of [handleZapReceipt] with its silent [catch]: every
    exception leaves the amount at 0. *)
Definition extract (event : Event) : Extracted :=
  match tag_value (find_tag "description" (tags event)) with
  | None => mkExtracted None (pubkey event) (Num 0)
  | Some description =>
      match JSON_parse description with
      | None => mkExtracted None (pubkey event) (Num 0)
      | Some JNull => mkExtracted (Some JNull) (pubkey event) (Num 0)
      | Some zapRequest =>
          let sender :=
            match get_field zapRequest "pubkey" with
            | Some p => if truthy p then p else JString (pubkey event)
            | None => JString (pubkey event)
            end in
          match sender with
          | JString sender =>
              let amount := request_amount zapRequest in
              let amount :=
                if num_eq amount (Num 0)
                then
                  match tag_value (find_tag "amount" (tags event)) with
                  | Some a => floor_div_1000 (parseInt a)
                  | None => amount
                  end
                else amount in
              mkExtracted (Some zapRequest) sender amount
          | _ =>
              (* [sender.substring] is not a function: caught, amount 0 *)
              mkExtracted (Some zapRequest) (pubkey event) (Num 0)
          end
      end
  end.

Definition handleZapReceipt (zapDb : ZapDb.ZapDatabase) (event : Event) (now now' : Z)
  : ZapDb.ZapDatabase * list Effect :=
  let bolt11 :=
    match find_tag "bolt11" (tags event) with
    | Some t => t !! 1%nat
    | None => None
    end in
  let x := extract event in
  if num_eq (ex_amount x) (Num 0) then (zapDb, [])
  else
    let '(zapDb1, _) :=
      ZapDb.saveZap zapDb
        (ZapDb.mkZapData (ex_sender x) (ex_amount x)
           (match ex_zapRequest x with Some v => get_field v "id" | None => None end)
           (Some (id event)) bolt11
           (Some (match ex_zapRequest x with Some v => JSON_stringify v | None => "null" end)))
        now now' in
    let balance := ZapDb.getBalance zapDb1 (ex_sender x) in
    (zapDb1,
     [BalanceUpdate (ex_sender x) balance (ex_amount x); BalanceResponse (ex_sender x) balance]).

End Receipts.

(** [handleBalanceRequest] (kind 1006) *)
Definition handleBalanceRequest (zapDb : ZapDb.ZapDatabase) (event : Event) : list Effect :=
  [BalanceResponse (pubkey event) (ZapDb.getBalance zapDb (pubkey event))].

(** *** The processor *)

(** What the AI client is asked. *)
Record Request := mkRequest {
  rq_message : string;
  rq_history : list Database.HistoryItem;
  rq_userContext : option (string * option string * option string);
  rq_conversationKey : option string;
}.

Record State := mkState {
  nip04 : bool;
  db : Database.Db;
  zapDb : ZapDb.ZapDatabase;
  processedMessages : gmap string Z;
  breaker : Breaker.CircuitBreaker;
  ai : Gemini.World;
  errors : Z;
}.

(** Everything outside the bot that one run of [processMessage] meets;
    [now_seen] is the clock reading that stamps the fingerprint,
    [now_sweep] the one that follows it and ages the old fingerprints. *)
Record Delivery := mkDelivery {
  decrypted : outcome string;
  profile : option Database.UserMetadata;
  now_seen : Z;
  now_sweep : Z;
  save_question : Database.SaveEnv;
  save_answer : Database.SaveEnv;
  now_debit : Z;
  remote : Request -> nat -> option (outcome string * Z);
  random_index : nat -> nat;
  signed : nat -> outcome string;
}.

Definition set_db (s : State) (d : Database.Db) : State :=
  mkState (nip04 s) d (zapDb s) (processedMessages s) (breaker s) (ai s) (errors s).
Definition set_zapDb (s : State) (z : ZapDb.ZapDatabase) : State :=
  mkState (nip04 s) (db s) z (processedMessages s) (breaker s) (ai s) (errors s).
Definition set_processedMessages (s : State) (m : gmap string Z) : State :=
  mkState (nip04 s) (db s) (zapDb s) m (breaker s) (ai s) (errors s).
Definition set_ai (s : State) (b : Breaker.CircuitBreaker) (w : Gemini.World) : State :=
  mkState (nip04 s) (db s) (zapDb s) (processedMessages s) b w (errors s).
Definition bump_errors (s : State) : State :=
  mkState (nip04 s) (db s) (zapDb s) (processedMessages s) (breaker s) (ai s) (errors s + 1).

Definition no_nip04 : string := "NIP-04 encryption not supported by signer".

(** [sendDM]: the n-th signing of the run yields the signed event's id or
    throws. *)
Definition sendDM (s : State) (d : Delivery) (n : nat) (why : Purpose)
    (recipient text : string) (sessionId : option string) : list Effect * outcome string :=
  if negb (nip04 s) then ([], Rejected no_nip04)
  else
    match signed d n with
    | Rejected e => ([], Rejected e)
    | Resolved eid => ([DM why recipient text (ZapDb.str_or_null sessionId)], Resolved eid)
    end.

(** [sendReply] *)
Definition sendReply (d : Delivery) (n : nat) (why : Purpose)
    (originalEvent : Event) (text : string) : list Effect * outcome string :=
  match signed d n with
  | Rejected e => ([], Rejected e)
  | Resolved eid => ([PublicReply why (id originalEvent) (pubkey originalEvent) text], Resolved eid)
  end.

(** The in-channel send shared by every branch: a DM for kind 4, a public
    reply for kind 1. *)
Definition respond (s : State) (d : Delivery) (why : Purpose) (event : Event)
    (text : string) (sessionId : option string) : list Effect * outcome string :=
  if kind event =? 4 then sendDM s d 0 why (pubkey event) text sessionId
  else sendReply d 0 why event text.

(** The texts of the notices; the emoji of the source are left out. *)
Definition balanceMessage (currentBalance : number) : string :=
  "Your current balance: " ++ number_to_string currentBalance ++ " sats. "
  ++ "Cost per message: DM (Direct Message): 1 sat; Public mention/reply: 2 sats. "
  ++ "Send a Zap to top up your balance!".

Definition insufficientBalanceMsg (currentBalance : number) (cost : Z) (k : Z) : string :=
  "Insufficient balance! Your balance: " ++ number_to_string currentBalance ++ " sats. "
  ++ "Required: " ++ pretty.pretty cost ++ " sats ("
  ++ (if k =? 4 then "DM" else "Public mention/reply") ++ "). "
  ++ "Please send a Zap to top up your balance and continue using ZapAI. Thank you!".

Definition paymentErrorMsg : string :=
  "An error occurred while processing your payment. Please try again.".

Definition processingErrorMsg : string :=
  "I encountered an error processing your message. Please try again.".

(** A notice appended to the session log. *)
Definition notice_options (event : Event) (messageType : string) (sessionId : option string)
  : Database.MessageOptions :=
  Database.mkMessageOptions None None sessionId None (Some (kind event)) None
    (Some messageType) None None.

Definition first_some (a b : option string) : option string :=
  match ZapDb.str_or_null a with
  | Some x => Some x
  | None => b
  end.

Definition userContext_of (userMetadata : option Database.UserMetadata)
  : option (string * option string * option string) :=
  match userMetadata with
  | Some um =>
      Some (default "User" (first_some (Database.um_name um) (ZapDb.str_or_null (Database.um_displayName um))),
            ZapDb.str_or_null (Database.um_about um),
            ZapDb.str_or_null (Database.um_nip05 um))
  | None => None
  end.

(** The branches that end by sending a notice, logging it and returning. *)
Definition finish_with_notice (s : State) (d : Delivery) (event : Event) (why : Purpose)
    (text messageType : string) (sessionId : option string)
    (before after : list Effect) : State * list Effect * outcome unit :=
  match respond s d why event text sessionId with
  | (effs, Rejected e) => (s, (before ++ effs)%list, Rejected e)
  | (effs, Resolved _) =>
      match
        Database.saveMessage (db s) (pubkey event) text true
          (notice_options event messageType sessionId) (save_answer d)
      with
      | (db', Rejected e) => (set_db s db', (before ++ effs)%list, Rejected e)
      | (db', Resolved _) => (set_db s db', (before ++ effs ++ after)%list, Resolved tt)
      end
  end.

(** The second half of the [try] block, entered once the question is in
    the session log: balance request, or pricing, debit, AI call and
    reply.  The optional response delay, a plain sleep, is left out. *)
Definition answer_question (s : State) (event : Event) (d : Delivery)
    (messageContent : string) (userMetadata : option Database.UserMetadata)
    (sessionId : option string) : State * list Effect * outcome unit :=
  if isBalanceRequest messageContent
  then
    let currentBalance := ZapDb.getBalance (zapDb s) (pubkey event) in
    finish_with_notice s d event BalanceInfo (balanceMessage currentBalance)
      "balance_info" sessionId
      [BalanceResponse (pubkey event) currentBalance] []
  else
    let cost := if kind event =? 4 then 1 else 2 in
    let currentBalance := ZapDb.getBalance (zapDb s) (pubkey event) in
    if num_lt currentBalance (Num cost)
    then
      finish_with_notice s d event InsufficientFunds
        (insufficientBalanceMsg currentBalance cost (kind event))
        "system" sessionId
        [] [BalanceResponse (pubkey event) currentBalance]
    else
      match ZapDb.deductFromBalance (zapDb s) (pubkey event) (Num cost) (now_debit d) with
      | (_, None) =>
          finish_with_notice s d event PaymentError paymentErrorMsg
            "system" sessionId
            [] [BalanceResponse (pubkey event) currentBalance]
      | (zapDb1, Some newBalance) =>
          let s := set_zapDb s zapDb1 in
          let paid := [Debit (pubkey event) cost] in
          let conversationHistory :=
            match ZapDb.str_or_null sessionId with
            | Some sid =>
                Database.getConversationBySession (db s) (pubkey event) (Some sid) 100
            | None => Database.getConversation (db s) (pubkey event) 100
            end in
          let conversationKey :=
            match ZapDb.str_or_null sessionId with
            | Some sid =>
                if kind event =? 4 then Some (pubkey event ++ ":" ++ sid) else None
            | None => None
            end in
          let request :=
            mkRequest messageContent conversationHistory
              (userContext_of userMetadata) conversationKey in
          match
            Gemini.generateResponse (remote d) (random_index d) request
              (breaker s) (ai s)
          with
          | (b', w', None) => (set_ai s b' w', paid, Rejected "no response")
          | (b', w', Some response) =>
              let s := set_ai s b' w' in
              match respond s d Answer event response sessionId with
              | (effs, Rejected e) => (s, (paid ++ effs)%list, Rejected e)
              | (effs, Resolved responseEventId) =>
                  let sent :=
                    (paid ++ effs ++ [BalanceResponse (pubkey event) newBalance])%list in
                  match
                    Database.saveMessage (db s) (pubkey event) response true
                      (Database.mkMessageOptions None (Some responseEventId)
                         sessionId None (Some (kind event)) None
                         (Some "response") None None)
                      (save_answer d)
                  with
                  | (db2, Rejected e) => (set_db s db2, sent, Rejected e)
                  | (db2, Resolved _) => (set_db s db2, sent, Resolved tt)
                  end
              end
          end
      end.

(** The [try] block of [processMessage]: content, fingerprint, and the
    question saved under the event-id; a duplicate stops here. *)
Definition process_body (s : State) (event : Event) (d : Delivery)
  : State * list Effect * outcome unit :=
  let sessionId0 :=
    if kind event =? 4 then tag_value (find_tag "session" (tags event)) else None in
  if negb ((kind event =? 4) || (kind event =? 1)) then (s, [], Resolved tt)
  else if (kind event =? 4) && negb (nip04 s) then (s, [], Resolved tt)
  else
    match (if kind event =? 4 then decrypted d else Resolved (content event)) with
    | Rejected e => (s, [], Rejected e)
    | Resolved messageContent =>
        if String.eqb (trim messageContent) "" then (s, [], Resolved tt)
        else
          let userMetadata := if kind event =? 4 then profile d else None in
          let messageFingerprint := pubkey event ++ ":" ++ messageContent in
          match processedMessages s !! messageFingerprint with
          | Some _ => (s, [], Resolved tt)
          | None =>
              let seen :=
                filter (fun kv => negb (300000 <? now_sweep d - snd kv) = true)
                  (<[messageFingerprint := now_seen d]> (processedMessages s)) in
              let s := set_processedMessages s seen in
              let messageMetadata :=
                Database.mkMessageOptions None (Some (id event)) sessionId0 None
                  (Some (kind event)) None (Some "question") None userMetadata in
              match
                Database.saveMessage (db s) (pubkey event) messageContent false
                  messageMetadata (save_question d)
              with
              | (db1, Rejected e) => (set_db s db1, [], Rejected e)
              | (db1, Resolved userMessageRecord) =>
                  let s := set_db s db1 in
                  let sessionId :=
                    if String.eqb (Database.sr_sessionId userMessageRecord) ""
                    then sessionId0
                    else Some (Database.sr_sessionId userMessageRecord) in
                  if Database.duplicate userMessageRecord then (s, [], Resolved tt)
                  else answer_question s event d messageContent userMetadata sessionId
              end
          end
    end.

(** [processMessage]: the body, and the [catch] that counts the error,
    tries an error notice on the private channel and throws again. *)
Definition processMessage (s : State) (event : Event) (d : Delivery)
  : State * list Effect * outcome unit :=
  match process_body s event d with
  | (s', effs, Resolved u) => (s', effs, Resolved u)
  | (s', effs, Rejected e) =>
      let s'' := bump_errors s' in
      let notice :=
        if kind event =? 4
        then fst (sendDM s'' d 1 ErrorNotice (pubkey event) processingErrorMsg None)
        else [] in
      (s'', (effs ++ notice)%list, Rejected e)
  end.

(** Tasks run one after the other, each on the state the previous one
    left; a task that throws is put back by the queue and, like any
    other replay, is one more element of the list. *)
Fixpoint deliver (s : State) (ds : list (Event * Delivery)) : State * list Effect :=
  match ds with
  | [] => (s, [])
  | (event, d) :: rest =>
      let '(s1, effs, _) := processMessage s event d in
      let '(s2, effs') := deliver s1 rest in
      (s2, (effs ++ effs')%list)
  end.

End Bot.

(** * Properties *)

(** ** The circuit breaker *)

Module BreakerFacts.
Import Breaker.

Section Protocol.
Context {W A : Type}.
Variable clock : W -> Z.

Abbreviation task := (@task W A).
Abbreviation handler := (@handler W A).

(** One call as the caller makes it: the wrapped function, the fallback
    and the world in which the call starts. *)
Definition call : Type := task * option handler * W.

Definition after (b : CircuitBreaker) (c : call) : CircuitBreaker :=
  let '(fn, fb, w) := c in fst (fst (execute clock b fn fb w)).

(** The breaker after a sequence of calls. *)
Definition run (b : CircuitBreaker) (cs : list call) : CircuitBreaker :=
  fold_left after cs b.




(** The breakers a program can hold: built by the constructor, then only
    touched by [execute] and [reset]. *)
Inductive reachable : CircuitBreaker -> Prop :=
| reach_new options now : reachable (constructor options now)
| reach_call b c : reachable b -> reachable (after b c)
| reach_reset b : reachable b -> reachable (reset b).

(** Same configuration. *)
Definition same_config (b b' : CircuitBreaker) : Prop :=
  failureThreshold b' = failureThreshold b /\
  successThreshold b' = successThreshold b /\
  timeout b' = timeout b /\
  resetTimeout b' = resetTimeout b.

(** [execute] spelled out on the three ways a call can go. *)
Lemma execute_rejected b fn fb w :
  state b = OPEN -> clock w < nextAttempt b ->
  execute clock b fn fb w =
    let b1 := set_stats (set_stats b (bump_requests (stats b)))
                (bump_rejected (bump_requests (stats b))) in
    match fb return (CircuitBreaker * W * outcome A)%type with
    | Some f => let '(w', r) := f w in (b1, w', r)
    | None => (b1, w, Rejected open_error)
    end.
Proof.
  intros Hs Hn. unfold execute, entry_check. cbn. rewrite Hs.
  assert (E : (clock w <? nextAttempt b) = true) by lia. rewrite E. reflexivity.
Qed.

(** The breaker as the call that is let through finds it. *)
Definition entered (b : CircuitBreaker) : CircuitBreaker :=
  let b0 := set_stats b (bump_requests (stats b)) in
  match state b with
  | OPEN => set_stats (set_state b0 HALF_OPEN) (bump_changes (stats b0))
  | _ => b0
  end.

Lemma execute_let_through b fn fb w :
  (state b = OPEN -> nextAttempt b <= clock w) ->
  execute clock b fn fb w =
    match executeWithTimeout fn (timeout b) w return (CircuitBreaker * W * outcome A)%type with
    | (w1, Resolved a) => (onSuccess (entered b), w1, Resolved a)
    | (w1, Rejected e) =>
        let b2 := onFailure (entered b) (clock w1) in
        match fb with
        | Some f => let '(w2, r) := f w1 in (b2, w2, r)
        | None => (b2, w1, Rejected e)
        end
    end.
Proof.
  intros Hn. unfold execute, entry_check, entered. cbn.
  destruct (state b) eqn:Hs; cbn; try reflexivity.
  assert (E : (clock w <? nextAttempt b) = false) by (specialize (Hn eq_refl); lia).
  rewrite E. reflexivity.
Qed.


Lemma entered_counters b :
  failures (entered b) = failures b /\ successes (entered b) = successes b /\
  nextAttempt (entered b) = nextAttempt b /\ same_config b (entered b).
Proof. unfold entered, same_config. destruct (state b); cbn; auto 10. Qed.

Lemma onSuccess_config b : same_config b (onSuccess b).
Proof.
  unfold same_config, onSuccess, close. cbn.
  destruct (state b); cbn; auto.
  destruct (successThreshold b <=? successes b + 1); cbn; auto.
Qed.

Lemma onFailure_config b now : same_config b (onFailure b now).
Proof.
  unfold same_config, onFailure, open. cbn.
  destruct (failureThreshold b <=? failures b + 1); cbn; auto.
  destruct (state b); cbn; auto.
Qed.

Lemma same_config_trans b1 b2 b3 :
  same_config b1 b2 -> same_config b2 b3 -> same_config b1 b3.
Proof. unfold same_config. intuition congruence. Qed.

Lemma after_same_config b c : same_config b (after b c).
Proof.
  destruct c as [[fn fb] w]. unfold after.
  destruct (Z.ltb_spec (clock w) (nextAttempt b)) as [Hlt|Hge], (state b) eqn:Hs.
  2: { rewrite execute_rejected by assumption.
       destruct fb as [f|]; [destruct (f w)|]; cbn; unfold same_config; cbn; auto. }
  all: rewrite execute_let_through by (intros; first [congruence | lia]).
  all: destruct (executeWithTimeout fn (timeout b) w) as [w1 [a|e]]; cbn;
       [ eapply same_config_trans; [apply entered_counters | apply onSuccess_config]
       | destruct fb as [f|]; [destruct (f w1)|]; cbn;
         (eapply same_config_trans; [apply entered_counters | apply onFailure_config]) ].
Qed.








Lemma same_config_refl b : same_config b b.
Proof. unfold same_config. auto. Qed.











Lemma reachable_same_thresholds b :
  reachable b ->
  exists options now,
    failureThreshold b = failureThreshold (constructor options now) /\
    successThreshold b = successThreshold (constructor options now).
Proof.
  induction 1 as [options now | b c _ IH | b _ IH].
  - eauto.
  - destruct IH as (o & n & H1 & H2). exists o, n.
    destruct (after_same_config b c) as (-> & -> & _). auto.
  - destruct IH as (o & n & H1 & H2). exists o, n.
    unfold reset, close. destruct (state b); cbn; auto.
Qed.






(** C10: with a fallback, [execute] never hands the function's error to
    its caller.  The call returns the function's value when the function
    succeeds; in every other case (the function throws or times out, in
    any state, or the call is rejected while OPEN) what it returns is
    what the fallback returns, so a fallback that does not throw makes
    [execute] return a value. *)
Theorem execute_with_fallback_returns_fallback (b : CircuitBreaker) (fn : task)
    (fb : handler) (w : W) :
  let '(_, w', r) := execute clock b fn (Some fb) w in
  ((state b = OPEN /\ clock w < nextAttempt b /\ (w', r) = fb w) \/
   (exists a, executeWithTimeout fn (timeout b) w = (w', Resolved a) /\ r = Resolved a) \/
   (exists w1 e, executeWithTimeout fn (timeout b) w = (w1, Rejected e) /\ (w', r) = fb w1)) /\
  ((forall w0, is_resolved (snd (fb w0)) = true) -> is_resolved r = true).
Proof.
  destruct (Z.ltb_spec (clock w) (nextAttempt b)) as [Hlt|Hge], (state b) eqn:Hs.
  2: { rewrite execute_rejected by assumption. destruct (fb w) as [w' r] eqn:Hfb. cbn.
       split; [left; auto|]. intros Htot. specialize (Htot w). rewrite Hfb in Htot. exact Htot. }
  all: rewrite execute_let_through by (intros; first [congruence | lia]).
  all: destruct (executeWithTimeout fn (timeout b) w) as [w1 [a|e]] eqn:Hrun; cbn.
  all: try (split; [right; left; eauto | reflexivity]).
  all: destruct (fb w1) as [w2 r] eqn:Hfb; cbn;
       (split; [right; right; eauto |]);
       intros Htot; specialize (Htot w1); rewrite Hfb in Htot; exact Htot.
Qed.

End Protocol.

(** *** Concrete runs: the world is the wall clock *)

Definition fn_ok : @task Z string := fun _ t => (t + 10, Some (Resolved "pong")).
Definition fn_hang : @task Z string := fun timeout t => (t + timeout, None).
Definition fb_sorry : @handler Z string := fun t => (t, Resolved "sorry").

Definition at_time (fn : @task Z string) (t : Z) : @call Z string := (fn, None, t).



(** The breaker of the AI client (3 failures open it, 1 success closes
    it, 10 s reset delay) after three timeouts of 60 s each. *)
Definition client_breaker_open : CircuitBreaker :=
  run id (Gemini.new_breaker 0)
    [at_time fn_hang 0; at_time fn_hang 60000; at_time fn_hang 120000].

(** The breaker scenario of the specification, run on the code. *)
Example breaker_scenario :
  state client_breaker_open = OPEN /\
  nextAttempt client_breaker_open = 190000 /\
  execute id client_breaker_open fn_ok (Some fb_sorry) 180001
    = (set_stats client_breaker_open (mkStats 4 3 0 1 1), 180001, Resolved "sorry") /\
  snd (execute id client_breaker_open fn_ok (Some fb_sorry) 190000) = Resolved "pong" /\
  state (after id client_breaker_open (at_time fn_ok 190000)) = CLOSED.
Proof. vm_compute. auto 10. Qed.




End BreakerFacts.

(** ** The AI client *)

Module GeminiFacts.
Import Breaker Gemini.

Section Client.
Context {Request : Type}.
Variable remote : Request -> nat -> option (outcome string * Z).
Variable random_index : nat -> nat.

Lemma nth_fallback k : (k < 3)%nat -> In (nth k fallback_strings "") fallback_strings.
Proof. intros Hk. destruct k as [|[|[|n]]]; cbn; auto; lia. Qed.

Lemma breaker_fallback_spec w :
  exists w' s,
    breaker_fallback random_index w = (w', Resolved s) /\
    remote_calls w' = remote_calls w /\ slept w' = slept w /\ In s fallback_strings.
Proof.
  unfold breaker_fallback, pick_fallback.
  eexists _, _. split; [reflexivity|]. split; [reflexivity|]. split; [reflexivity|].
  apply nth_fallback, Nat.mod_upper_bound. lia.
Qed.

Lemma internal_spec req timeout w :
  let '(w', _) := _generateResponseInternal remote req timeout w in
  remote_calls w' = S (remote_calls w) /\ slept w' = slept w.
Proof.
  unfold _generateResponseInternal.
  destruct (remote req (remote_calls w)) as [[r d]|]; cbn; auto.
  destruct (d <? timeout); cbn; auto. destruct r; cbn; auto.
Qed.

(** One breaker-protected call: it always returns a value, asks the
    remote model at most once and does not sleep. *)
Lemma protected_call_spec req b w :
  exists b' w' s,
    execute clock b (_generateResponseInternal remote req)
      (Some (breaker_fallback random_index)) w = (b', w', Resolved s) /\
    (remote_calls w' <= S (remote_calls w))%nat /\ slept w' = slept w.
Proof.
  destruct (Z.ltb_spec (clock w) (nextAttempt b)) as [Hlt|Hge], (state b) eqn:Hs.
  2: { rewrite BreakerFacts.execute_rejected by assumption.
       destruct (breaker_fallback_spec w) as (w' & s & -> & Hc & Hsl & _).
       eexists _, _, _. split; [reflexivity|]. split; [lia | assumption]. }
  all: rewrite BreakerFacts.execute_let_through by (intros; first [congruence | lia]).
  all: unfold executeWithTimeout.
  all: pose proof (internal_spec req (timeout b) w) as Hint.
  all: destruct (_generateResponseInternal remote req (timeout b) w) as [w1 [[a|e]|]];
       destruct Hint as [Hc1 Hs1]; cbv beta iota zeta.
  all: try (eexists _, _, _; split; [reflexivity|]; split; [lia | assumption]).
  all: destruct (breaker_fallback_spec w1) as (w' & s & -> & Hc & Hsl & _);
       eexists _, _, _; (split; [reflexivity|]); split; [lia | congruence].
Qed.

(** [generateResponse] returns after its first breaker-protected call:
    the remote model is asked at most once and no backoff is slept,
    whatever the model answers. *)
Lemma generateResponse_single_attempt req b w :
  exists b' w' s,
    generateResponse remote random_index req b w = (b', w', Some s) /\
    (remote_calls w' <= S (remote_calls w))%nat /\ slept w' = slept w.
Proof.
  unfold generateResponse.
  change (Z.to_nat (maxRetries + 1)) with 3%nat. cbn [attempts_from].
  change (0 <? 0) with false. cbv iota.
  match goal with
  | |- context [execute clock b ?f ?h ?w0] =>
      destruct (protected_call_spec req b w0) as (b' & w' & s & -> & Hc & Hs)
  end.
  exists b', w', s. split; [reflexivity|]. cbn in *. auto.
Qed.

End Client.

(** A model that fails once with a transient error and would answer the
    second request. *)
Definition flaky (_ : unit) (n : nat) : option (outcome string * Z) :=
  match n with
  | O => Some (Rejected "fetch failed", 120)
  | S _ => Some (Resolved "Hello!", 800)
  end.

Definition fresh_world : World := mkWorld (mkStats 0 0 0 0) 0 0 [] 0.

(** C4, on the code: the first breaker-protected call fails with a
    transient error and a second call would succeed, yet
    [generateResponse] answers with a fallback apology at once.  The
    remote model has been asked once, nothing was slept, and the breaker
    has counted one failure. *)
Theorem generateResponse_first_failure_is_final :
  let '(b', w', answer) := generateResponse flaky (fun _ => O) tt (new_breaker 0) fresh_world in
  answer = Some "I'm currently experiencing high demand. Please try again in a moment." /\
  remote_calls w' = 1%nat /\ slept w' = [] /\
  fallbacks (stats w') = 1 /\ failed (stats w') = 0 /\
  failures b' = 1 /\ state b' = CLOSED /\
  flaky tt 1 = Some (Resolved "Hello!", 800).
Proof. vm_compute. auto 10. Qed.

End GeminiFacts.

(** ** The rate limiter *)

Module RateLimiterFacts.
Import RateLimiter.

(** When the global bucket denies, that denial is the result and the
    per-user buckets are not touched. *)
Lemma global_denial_first rl userId cost now rl1 :
  checkGlobalLimit rl cost now = (rl1, false) ->
  checkLimit rl userId cost now
    = (rl1, mkResult false (Some global_reason) (Some (getRetryAfter rl1 (globalBucket rl1)))) /\
  buckets rl1 = buckets rl /\
  globalBucket rl1 = refillBucket rl (globalBucket rl) now.
Proof.
  intros H. unfold checkLimit. rewrite H. cbn. split; [reflexivity|].
  unfold checkGlobalLimit in H.
  destruct (Qle_bool cost (tokens (refillBucket rl (globalBucket rl) now)));
    inversion H; subst; cbn; auto.
Qed.

(** Every denial computes its delay from the refilled bucket it met, as
    the time until one token is there. *)
Lemma refilled_global rl cost now :
  globalBucket (fst (checkGlobalLimit rl cost now)) = refillBucket rl (globalBucket rl) now \/
  snd (checkGlobalLimit rl cost now) = true.
Proof.
  unfold checkGlobalLimit.
  destruct (Qle_bool cost (tokens (refillBucket rl (globalBucket rl) now))); cbn; auto.
Qed.

Lemma checkGlobalLimit_rate rl cost now :
  refillRate (fst (checkGlobalLimit rl cost now)) = refillRate rl.
Proof.
  unfold checkGlobalLimit.
  destruct (Qle_bool cost (tokens (refillBucket rl (globalBucket rl) now))); reflexivity.
Qed.

Lemma denial_retryAfter rl userId cost now rl' res :
  checkLimit rl userId cost now = (rl', res) -> allowed res = false ->
  exists bucket,
    retryAfter res
      = Some (Z.max 1 (Qceiling ((1 - tokens bucket) / refillRate rl))) /\
    (bucket = refillBucket rl (globalBucket rl) now \/
     bucket = snd (getUserBucket (fst (checkGlobalLimit rl cost now)) userId now)).
Proof.
  unfold checkLimit.
  pose proof (checkGlobalLimit_rate rl cost now) as Hrate.
  pose proof (refilled_global rl cost now) as Hglobal.
  destruct (checkGlobalLimit rl cost now) as [rl1 ok]. cbn [fst snd] in *.
  destruct ok; cbn [negb].
  - destruct (getUserBucket rl1 userId now) as [rl2 bucket] eqn:Hu.
    destruct (Qle_bool cost (tokens bucket)); intros H Hden; inversion H; subst;
      cbn in Hden; [discriminate|].
    exists bucket. split; [|right; reflexivity].
    unfold getUserBucket in Hu. inversion Hu; subst.
    unfold getRetryAfter. cbn. rewrite Hrate. reflexivity.
  - intros H _. inversion H; subst.
    destruct Hglobal as [Hglobal|Hglobal]; [|discriminate].
    exists (refillBucket rl (globalBucket rl) now). split; [|left; reflexivity].
    unfold getRetryAfter. cbn. rewrite Hglobal, Hrate. reflexivity.
Qed.

(** A limiter of capacity 10 refilled at 1 token per second, after one
    request of cost 9. *)
Definition limiter_after_nine : RateLimiter :=
  fst (checkLimit (constructor (Some 10%Q) (Some 1%Q) None 0) "alice" 9 0).

(** C7, on the code: a request of cost 5 meets a bucket holding 1 token.
    It is denied with [retryAfter] = 1, the wait for a single token; the
    claimed [ceil((cost - tokens) / refillRate)] is 4. *)
Theorem retryAfter_ignores_cost :
  let '(rl', res) := checkLimit limiter_after_nine "alice" 5 0 in
  allowed res = false /\
  reason res = Some global_reason /\
  Qeq (tokens (globalBucket rl')) 1 /\
  retryAfter res = Some 1 /\
  Z.max 1 (Qceiling ((5 - tokens (globalBucket rl')) / refillRate rl')) = 4.
Proof. vm_compute. repeat split; congruence. Qed.

End RateLimiterFacts.

(** ** Accounting *)

Module AccountingFacts.
Import JS ZapDb Bot.

Lemma num_or_zero_num z : num_or_zero (Num z) = Num z.
Proof. unfold num_or_zero. cbn. destruct (Z.eqb_spec z 0) as [->|]; reflexivity. Qed.

(** A debit never takes a balance below zero: it is refused when the
    stored balance is smaller than the amount. *)
Lemma deduct_guard db pubkey b amount now :
  balances db !! balanceKey pubkey = Some b ->
  forall z, balance b = Num z -> 0 <= z ->
  match deductFromBalance db pubkey (Num amount) now with
  | (db', None) => z < amount /\ db' = db
  | (db', Some nb) =>
      amount <= z /\ nb = Num (z - amount) /\
      getBalance db' pubkey = Num (z - amount) /\ 0 <= z - amount
  end.
Proof.
  intros Hb z Hz Hpos. unfold deductFromBalance. rewrite Hb, Hz. cbn.
  destruct (Z.ltb_spec z amount); [auto|].
  split; [lia|]. split; [reflexivity|].
  unfold getBalance. cbn. rewrite lookup_insert_eq. cbn.
  rewrite num_or_zero_num. split; [reflexivity | lia].
Qed.

(** A credit of a non-negative amount keeps a non-negative balance
    non-negative. *)
Lemma credit_nonnegative db pubkey amount now z :
  getBalance db pubkey = Num z -> 0 <= z -> 0 <= amount ->
  getBalance (fst (addToBalance db pubkey (Num amount) now)) pubkey = Num (z + amount).
Proof.
  unfold getBalance, addToBalance. cbn. intros Hz Hpos Ha.
  rewrite lookup_insert_eq. cbn.
  destruct (balances db !! balanceKey pubkey) as [r|].
  - rewrite Hz. cbn. apply num_or_zero_num.
  - inversion Hz; subst. cbn. apply num_or_zero_num.
Qed.

Section Receipts.
Variable JSON_parse : string -> option JValue.
Variable JSON_stringify : JValue -> string.

(** A receipt whose amount comes out as exactly 0 is dropped: nothing is
    stored, nothing is credited, nothing is published. *)
Lemma zero_amount_dropped zapDb event now now' :
  ex_amount (extract JSON_parse event) = Num 0 ->
  handleZapReceipt JSON_parse JSON_stringify zapDb event now now' = (zapDb, []).
Proof. intros H. unfold handleZapReceipt. rewrite H. reflexivity. Qed.

(** So is a receipt without a description, or whose description is not
    JSON. *)
Lemma unparsed_request_dropped zapDb event now now' :
  match tag_value (find_tag "description" (tags event)) with
  | Some description => JSON_parse description = None
  | None => True
  end ->
  handleZapReceipt JSON_parse JSON_stringify zapDb event now now' = (zapDb, []).
Proof.
  intros H. apply zero_amount_dropped. unfold extract.
  destruct (tag_value (find_tag "description" (tags event))); [rewrite H|]; reflexivity.
Qed.

End Receipts.

(** The embedded requests of the examples.  Their JSON text is named, not
    spelled out; [parse_example] is [JSON.parse] on these texts. *)
Definition request_with_amount (millisats : string) : JValue :=
  JObject [("id", JString "req1"); ("pubkey", JString "p1");
           ("tags", JArray [JArray [JString "p"; JString "bot"];
                            JArray [JString "amount"; JString millisats]])].

Definition parse_example (text : string) : option JValue :=
  if String.eqb text "<request: amount 50000>" then Some (request_with_amount "50000")
  else if String.eqb text "<request: amount -5000>" then Some (request_with_amount "-5000")
  else if String.eqb text "<request: amount abc>" then Some (request_with_amount "abc")
  else None.

Definition stringify_example (_ : JValue) : string := "<request>".

Definition receipt (description : string) : Event :=
  mkEvent "receipt1" "provider" 9735 1700000000
    [["p"; "bot"]; ["bolt11"; "lnbc1"]; ["description"; description]] "".

(** The credit scenario of the specification: 50000 millisats make 50
    sats. *)
Example credit_scenario :
  let '(db', effs) :=
    handleZapReceipt parse_example stringify_example ZapDb.empty
      (receipt "<request: amount 50000>") 1000 1001 in
  getBalance db' "p1" = Num 50 /\
  effs = [BalanceUpdate "p1" (Num 50) (Num 50); BalanceResponse "p1" (Num 50)].
Proof. vm_compute. auto. Qed.

(** C1, on the code: a receipt whose request carries the amount "-5000"
    passes the zero check with -5 sats; the credit leaves the sender, who
    had nothing, with a balance of -5. *)
Theorem negative_receipt_makes_balance_negative :
  let event := receipt "<request: amount -5000>" in
  let '(db', _) :=
    handleZapReceipt parse_example stringify_example ZapDb.empty event 1000 1001 in
  ex_amount (extract parse_example event) = Num (-5) /\
  num_eq (Num (-5)) (Num 0) = false /\
  getBalance ZapDb.empty "p1" = Num 0 /\
  balances db' !! balanceKey "p1" = Some (mkBalance "p1" (Num (-5)) 1001) /\
  getBalance db' "p1" = Num (-5) /\
  num_lt (getBalance db' "p1") (Num 0) = true.
Proof. vm_compute. auto 10. Qed.

(** A store in which p1 holds 50 sats. *)
Definition fifty : ZapDatabase := fst (addToBalance ZapDb.empty "p1" (Num 50) 500).

(** C3, on the code: the request's amount tag is "abc".  The amount comes
    out as NaN, which is not [=== 0], so the receipt is not dropped: a
    receipt record with amount NaN is stored and the sender's balance of
    50 is overwritten with NaN. *)
Theorem unparseable_amount_is_persisted :
  let event := receipt "<request: amount abc>" in
  let '(db', effs) :=
    handleZapReceipt parse_example stringify_example fifty event 1000 1001 in
  ex_amount (extract parse_example event) = NaN /\
  getBalance fifty "p1" = Num 50 /\
  zaps db' !! zapKey "p1" 1000
    = Some (mkZap "p1" NaN 1000 (Some (JString "req1")) (Some "receipt1") (Some "lnbc1")
              (Some "<request>")) /\
  balances db' !! balanceKey "p1" = Some (mkBalance "p1" NaN 1001) /\
  effs = [BalanceUpdate "p1" (Num 0) NaN; BalanceResponse "p1" (Num 0)].
Proof. vm_compute. auto 10. Qed.

End AccountingFacts.

(** ** The balance-intent classifier *)

Module ClassifierFacts.
Import JS Bot.

(** Any message that contains an exclusion term, once lower-cased and
    trimmed, is left to the AI. *)
Lemma exclusion_term_wins message keyword :
  In keyword profileKeywords ->
  includes (trim (toLowerCase message)) keyword = true ->
  isBalanceRequest message = false.
Proof.
  intros Hin Hinc. unfold isBalanceRequest.
  destruct (String.eqb message ""); [reflexivity|].
  assert (existsb (includes (trim (toLowerCase message))) profileKeywords = true) as ->.
  { apply existsb_exists. eauto. }
  reflexivity.
Qed.

(** C8: the classifier is a function of the message text alone, and on
    the two inputs of the specification it answers as stated: "chek my
    balnce?" is a balance request because "balnce?" is at distance 2 from
    "balance", within the 30 % allowance of 2, and the context word "my"
    is present; "tell me about my profile" is not, because the exclusion
    term "profile" occurs in it, as in any message that contains one. *)
Theorem balance_intent_examples :
  isBalanceRequest "chek my balnce?" = true /\
  isBalanceRequest "tell me about my profile" = false /\
  levenshteinDistance "balnce?" "balance" = 2 /\
  maxDistance "balance" = 2 /\
  includes "chek my balnce?" "my" = true /\
  split_ws "chek my balnce?" = ["chek"; "my"; "balnce?"] /\
  existsb (includes "chek my balnce?") profileKeywords = false /\
  includes "tell me about my profile" "profile" = true /\
  (forall message : string,
     includes (trim (toLowerCase message)) "profile" = true ->
     isBalanceRequest message = false).
Proof.
  split; [vm_compute; reflexivity|].
  split; [vm_compute; reflexivity|].
  split; [vm_compute; reflexivity|].
  split; [vm_compute; reflexivity|].
  split; [vm_compute; reflexivity|].
  split; [vm_compute; reflexivity|].
  split; [vm_compute; reflexivity|].
  split; [vm_compute; reflexivity|].
  intros message H. apply (exclusion_term_wins message "profile"); [|exact H].
  unfold profileKeywords. cbn [In]. auto.
Qed.

(** Further runs of the classifier. *)
Example classifier_runs :
  isBalanceRequest "how much sats" = true /\
  isBalanceRequest "SATS" = true /\
  isBalanceRequest "hello there" = false /\
  isBalanceRequest "please show wallet" = true /\
  isBalanceRequest "what is my name" = false /\
  isBalanceRequest "" = false.
Proof. vm_compute. auto 10. Qed.

Example parseInt_runs :
  parseInt "  -5000abc" = Num (-5000) /\ parseInt "abc" = NaN /\
  parseInt "0x1F" = Num 31 /\ parseInt "50000" = Num 50000 /\ parseInt "" = NaN.
Proof. vm_compute. auto 10. Qed.

End ClassifierFacts.

(** ** The relay subscription loop *)

Module RelayFacts.
Import Bot.

(** The events of a stream that reach the handler: the EVENT frames
    received before the relay closes the stream. *)
Fixpoint delivered (fs : list Frame) : list Event :=
  match fs with
  | [] => []
  | EVENT ev :: rest => ev :: delivered rest
  | CLOSED _ :: _ => []
  | _ :: rest => delivered rest
  end.

Fixpoint closed_by_relay (fs : list Frame) : bool :=
  match fs with
  | [] => false
  | CLOSED _ :: _ => true
  | _ :: rest => closed_by_relay rest
  end.

(** A subscription is lost, and a reconnect is due, when its stream ends,
    is closed by the relay or throws anything but an abort, while the
    signal is not aborted. *)
Definition lost (sub : Subscription) : bool :=
  negb (abortedAfterStream sub) &&
  (closed_by_relay (frames sub) ||
   match ending sub with
   | Ended => true
   | Threw name => negb (String.eqb name "AbortError")
   end).

(** The consecutive-failure counter a lost subscription finds: what it
    was before the subscription when no event came through, zero when
    one did. *)
Definition counter_at_failure (relayUrl : string) (sub : Subscription) (sv : Supervisor) : Z :=
  match delivered (frames sub) with
  | [] => attempts_of sv relayUrl
  | _ :: _ => 0
  end.

Definition handled (relayUrl : string) (fs : list Frame) : list RelayEffect :=
  List.map (fun ev => Handled ev relayUrl) (delivered fs).

(** What [n] lost subscriptions in a row make the loop do when the first
    finds the counter at [k]: subscribe, sleep min(5000 * 2^k, 60000) ms,
    subscribe, sleep min(5000 * 2^(k+1), 60000) ms, and so on. *)
Fixpoint backoff (relayUrl : string) (k : Z) (n : nat) : list RelayEffect :=
  match n with
  | O => []
  | S n' =>
      Subscribed relayUrl :: Slept (Z.min (5000 * 2 ^ k) 60000) :: backoff relayUrl (k + 1) n'
  end.

(** A subscription that is lost without an event, after which the loop
    goes on. *)
Definition silent_failure (sub : Subscription) : Prop :=
  lost sub = true /\ delivered (frames sub) = [] /\ abortedAfterSleep sub = false.

Lemma set_attempts_twice sv relayUrl a b :
  set_attempts (set_attempts sv relayUrl a) relayUrl b = set_attempts sv relayUrl b.
Proof. unfold set_attempts. cbn. rewrite insert_insert_eq. reflexivity. Qed.

Lemma set_attempts_same sv relayUrl k :
  reconnectAttempts sv !! relayUrl = Some k -> set_attempts sv relayUrl k = sv.
Proof.
  intros H. destruct sv as [m a f c]. unfold set_attempts. cbn in *.
  rewrite (insert_id _ _ _ H). reflexivity.
Qed.

Lemma attempts_of_set sv relayUrl k : attempts_of (set_attempts sv relayUrl k) relayUrl = k.
Proof. unfold attempts_of, set_attempts. cbn. rewrite lookup_insert_eq. reflexivity. Qed.

(** The [for await] loop: the events before the first CLOSED frame are
    handed on; the counter is put back to zero when there is one, and
    left alone when there is none. *)
Lemma read_frames_spec relayUrl fs : forall sv,
  read_frames relayUrl fs sv =
    (match delivered fs with
     | [] => sv
     | _ :: _ => set_attempts sv relayUrl 0
     end,
     handled relayUrl fs, closed_by_relay fs).
Proof.
  unfold handled.
  induction fs as [|f fs IH]; intros sv; cbn; [reflexivity|].
  destruct f; cbn; auto.
  rewrite IH. destruct (delivered fs); [reflexivity|].
  rewrite set_attempts_twice. reflexivity.
Qed.

(** One lost subscription. *)
Lemma iteration_lost relayUrl sub sv :
  relayUrl ∉ failedRelays sv -> lost sub = true ->
  let k := counter_at_failure relayUrl sub sv in
  iteration relayUrl sub sv =
    if maxReconnectAttempts sv <=? k
    then (mark_failed (match delivered (frames sub) with
                       | [] => sv
                       | _ :: _ => set_attempts sv relayUrl 0
                       end) relayUrl,
          Subscribed relayUrl :: handled relayUrl (frames sub), Break)
    else (set_attempts sv relayUrl (k + 1),
          (Subscribed relayUrl :: handled relayUrl (frames sub)
             ++ [Slept (Z.min (5000 * 2 ^ k) 60000)])%list,
          Continue (abortedAfterSleep sub)).
Proof.
  intros Hnot Hlost k. unfold iteration.
  rewrite bool_decide_eq_false_2 by assumption.
  rewrite read_frames_spec. unfold lost in Hlost.
  apply andb_true_iff in Hlost as [Hab Hlost]. apply negb_true_iff in Hab.
  rewrite Hab. unfold k, counter_at_failure, reconnectDelay.
  assert (Hk : attempts_of (match delivered (frames sub) with
                            | [] => sv
                            | _ :: _ => set_attempts sv relayUrl 0
                            end) relayUrl
               = match delivered (frames sub) with
                 | [] => attempts_of sv relayUrl
                 | _ :: _ => 0
                 end).
  { destruct (delivered (frames sub)); [reflexivity | apply attempts_of_set]. }
  assert (Hmax : maxReconnectAttempts (match delivered (frames sub) with
                            | [] => sv
                            | _ :: _ => set_attempts sv relayUrl 0
                            end) = maxReconnectAttempts sv).
  { destruct (delivered (frames sub)); reflexivity. }
  assert (Hset : forall n, set_attempts (match delivered (frames sub) with
                            | [] => sv
                            | _ :: _ => set_attempts sv relayUrl 0
                            end) relayUrl n = set_attempts sv relayUrl n).
  { intros n. destruct (delivered (frames sub)); [reflexivity | apply set_attempts_twice]. }
  rewrite Hk, Hmax, Hset.
  destruct (closed_by_relay (frames sub)); cbn in Hlost |- *.
  - reflexivity.
  - destruct (ending sub) as [|name]; [reflexivity|].
    apply negb_true_iff in Hlost. rewrite Hlost. reflexivity.
Qed.

Lemma loop_failed relayUrl subs : forall aborted sv,
  relayUrl ∈ failedRelays sv -> loop relayUrl subs aborted sv = (sv, []).
Proof.
  destruct subs as [|sub subs]; intros aborted sv Hin; cbn.
  - destruct aborted; reflexivity.
  - destruct aborted; [reflexivity|].
    unfold iteration. rewrite bool_decide_eq_true_2 by assumption. reflexivity.
Qed.

Lemma listenToRelay_loop relayUrl subs aborted sv :
  listenToRelay relayUrl subs aborted sv =
    loop relayUrl subs aborted (set_attempts sv relayUrl (attempts_of sv relayUrl)).
Proof.
  unfold listenToRelay, attempts_of.
  destruct (reconnectAttempts sv !! relayUrl) as [k|] eqn:Hk; cbn.
  - rewrite (set_attempts_same sv relayUrl k Hk). reflexivity.
  - reflexivity.
Qed.

(** Lost subscriptions in a row, none with an event: each one that finds
    the counter below the maximum advances it by one after its sleep; the
    one that finds it at the maximum marks the relay failed and ends the
    loop, whatever subscriptions would follow. *)
Lemma loop_silent_failures relayUrl subs : forall more sv,
  relayUrl ∉ failedRelays sv ->
  Forall silent_failure subs ->
  let k0 := attempts_of sv relayUrl in
  let n := Z.of_nat (length subs) in
  k0 <= maxReconnectAttempts sv ->
  loop relayUrl (subs ++ more) false (set_attempts sv relayUrl k0) =
    if k0 + n <=? maxReconnectAttempts sv
    then
      let '(sv', effs) := loop relayUrl more false (set_attempts sv relayUrl (k0 + n)) in
      (sv', (backoff relayUrl k0 (length subs) ++ effs)%list)
    else
      (mark_failed (set_attempts sv relayUrl (maxReconnectAttempts sv)) relayUrl,
       (backoff relayUrl k0 (Z.to_nat (maxReconnectAttempts sv - k0)) ++ [Subscribed relayUrl])%list).
Proof.
  induction subs as [|sub subs IH]; intros more sv Hnot Hsubs k0 n Hk0.
  - cbn [app length backoff]. unfold n. cbn [length Z.of_nat].
    replace (k0 + Z.of_nat 0) with k0 by lia.
    assert ((k0 <=? maxReconnectAttempts sv) = true) as -> by lia.
    destruct (loop relayUrl more false (set_attempts sv relayUrl k0)); reflexivity.
  - inversion Hsubs as [|? ? (Hlost & Hquiet & Hgo) Hrest]; subst.
    cbn [app loop].
    pose proof (iteration_lost relayUrl sub (set_attempts sv relayUrl k0)) as Hit.
    unfold counter_at_failure, handled in Hit. rewrite Hquiet in Hit.
    rewrite attempts_of_set, set_attempts_twice in Hit. cbn [List.map app] in Hit.
    change (maxReconnectAttempts (set_attempts sv relayUrl k0))
      with (maxReconnectAttempts sv) in Hit.
    rewrite (Hit Hnot Hlost). clear Hit. rewrite Hgo.
    destruct (Z.leb_spec (maxReconnectAttempts sv) k0) as [Hmax|Hlt].
    + assert (k0 = maxReconnectAttempts sv) as Heq by lia.
      assert ((k0 + n <=? maxReconnectAttempts sv) = false) as ->
        by (apply Z.leb_gt; unfold n; rewrite length_cons; lia).
      rewrite <- Heq. replace (k0 - k0) with 0 by lia. reflexivity.
    + specialize (IH more (set_attempts sv relayUrl (k0 + 1)) Hnot Hrest).
      cbv zeta in IH. rewrite attempts_of_set in IH.
      rewrite !set_attempts_twice in IH.
      change (maxReconnectAttempts (set_attempts sv relayUrl (k0 + 1)))
        with (maxReconnectAttempts sv) in IH.
      rewrite IH by lia. clear IH.
      unfold n. cbn [length].
      replace (k0 + 1 + Z.of_nat (length subs)) with (k0 + Z.of_nat (S (length subs))) by lia.
      destruct (k0 + Z.of_nat (S (length subs)) <=? maxReconnectAttempts sv).
      * destruct (loop relayUrl more false _) as [sv' effs]. reflexivity.
      * f_equal. 
        replace (Z.to_nat (maxReconnectAttempts sv - k0))
          with (S (Z.to_nat (maxReconnectAttempts sv - (k0 + 1)))) by lia.
        reflexivity.
Qed.


(** Whatever a subscription does, the counter stays between zero and the
    maximum. *)
Lemma iteration_keeps_bounds relayUrl sub sv :
  0 <= attempts_of sv relayUrl <= maxReconnectAttempts sv ->
  let sv' := fst (fst (iteration relayUrl sub sv)) in
  maxReconnectAttempts sv' = maxReconnectAttempts sv /\
  0 <= attempts_of sv' relayUrl <= maxReconnectAttempts sv.
Proof.
  intros Hk. unfold iteration.
  destruct (bool_decide (relayUrl ∈ failedRelays sv)); [cbn; auto|].
  rewrite read_frames_spec.
  set (sv1 := match delivered (frames sub) with
              | [] => sv
              | _ :: _ => set_attempts sv relayUrl 0
              end).
  assert (Hmax : maxReconnectAttempts sv1 = maxReconnectAttempts sv).
  { unfold sv1. destruct (delivered (frames sub)); reflexivity. }
  assert (Hk1 : 0 <= attempts_of sv1 relayUrl <= maxReconnectAttempts sv).
  { unfold sv1. destruct (delivered (frames sub)); [exact Hk|].
    rewrite attempts_of_set. lia. }
  rewrite Hmax.
  destruct (if closed_by_relay (frames sub) then Ended else ending sub) as [|name];
    [|destruct (String.eqb name "AbortError")];
    destruct (Z.leb_spec (maxReconnectAttempts sv) (attempts_of sv1 relayUrl));
    destruct (abortedAfterStream sub); cbn [fst snd];
    rewrite ?attempts_of_set; auto; cbn; lia.
Qed.

(** C9, as amended.  For a relay that is not marked failed and whose
    consecutive-failure counter lies between zero and the maximum (true
    when the supervisor is created, and kept by every subscription):
    - the frames of a subscription: the events received before the relay
      closes the stream are handed on; one event or more puts the counter
      back to zero, and a subscription without an event leaves the
      counter as it was;
    - one lost subscription: with k the counter it finds (the counter
      before the subscription, or zero after an event), when k is below
      the maximum the loop sets the counter to k + 1 and sleeps
      min(5000 * 2^k, 60000) ms before it reconnects; when k is the
      maximum the relay is marked permanently failed, the loop exits,
      and from then on [listenToRelay] opens no subscription to it;
    - lost subscriptions in a row, none with an event, the first finding
      the counter at k0: as long as there are at most max - k0 of them,
      each is followed by its sleep (of min(5000 * 2^(k0 + i), 60000) ms
      after the i-th, counted from zero) and the counter ends at k0 plus
      their number, the relay not being marked; as soon as there are
      more, the relay is marked failed at the failure number
      max - k0 + 1, after max - k0 sleeps, and whatever subscription
      would follow is never opened;
    - every subscription, lost or not, keeps the counter between zero
      and the maximum. *)
Theorem reconnect_policy (relayUrl : string) (sv : Supervisor) :
  relayUrl ∉ failedRelays sv ->
  0 <= attempts_of sv relayUrl <= maxReconnectAttempts sv ->
  (forall fs,
     read_frames relayUrl fs sv =
       (match delivered fs with
        | [] => sv
        | _ :: _ => set_attempts sv relayUrl 0
        end,
        List.map (fun ev => Handled ev relayUrl) (delivered fs),
        closed_by_relay fs)) /\
  (forall sub,
     lost sub = true ->
     let k := match delivered (frames sub) with
              | [] => attempts_of sv relayUrl
              | _ :: _ => 0
              end in
     let events := List.map (fun ev => Handled ev relayUrl) (delivered (frames sub)) in
     (k < maxReconnectAttempts sv ->
        iteration relayUrl sub sv =
          (set_attempts sv relayUrl (k + 1),
           (Subscribed relayUrl :: events ++ [Slept (Z.min (5000 * 2 ^ k) 60000)])%list,
           Continue (abortedAfterSleep sub))) /\
     (k = maxReconnectAttempts sv ->
        exists sv',
          iteration relayUrl sub sv = (sv', Subscribed relayUrl :: events, Break) /\
          relayUrl ∈ failedRelays sv' /\
          connected sv' !! relayUrl = Some false /\
          attempts_of sv' relayUrl = k /\
          forall subs aborted, snd (listenToRelay relayUrl subs aborted sv') = [])) /\
  (forall subs more,
     Forall silent_failure subs ->
     let k0 := attempts_of sv relayUrl in
     let n := Z.of_nat (length subs) in
     (k0 + n <= maxReconnectAttempts sv ->
        listenToRelay relayUrl subs false sv =
          (set_attempts sv relayUrl (k0 + n), backoff relayUrl k0 (length subs)) /\
        relayUrl ∉ failedRelays (set_attempts sv relayUrl (k0 + n))) /\
     (maxReconnectAttempts sv < k0 + n ->
        listenToRelay relayUrl (subs ++ more) false sv =
          (mark_failed (set_attempts sv relayUrl (maxReconnectAttempts sv)) relayUrl,
           (backoff relayUrl k0 (Z.to_nat (maxReconnectAttempts sv - k0))
              ++ [Subscribed relayUrl])%list))) /\
  (forall sub,
     let sv' := fst (fst (iteration relayUrl sub sv)) in
     maxReconnectAttempts sv' = maxReconnectAttempts sv /\
     0 <= attempts_of sv' relayUrl <= maxReconnectAttempts sv).
Proof.
  intros Hnot Hk. split; [|split; [|split]].
  - intros fs. apply read_frames_spec.
  - intros sub Hlost k events.
    pose proof (iteration_lost relayUrl sub sv Hnot Hlost) as Hit.
    unfold counter_at_failure, handled in Hit. cbv zeta in Hit. fold k events in Hit.
    split.
    + intros Hlt. rewrite Hit.
      assert ((maxReconnectAttempts sv <=? k) = false) as -> by lia. reflexivity.
    + intros Heq. rewrite Hit.
      assert ((maxReconnectAttempts sv <=? k) = true) as -> by lia.
      eexists. split; [reflexivity|].
      set (sv1 := match delivered (frames sub) with
                  | [] => sv
                  | _ :: _ => set_attempts sv relayUrl 0
                  end).
      assert (Hin : relayUrl ∈ failedRelays (mark_failed sv1 relayUrl)).
      { unfold mark_failed. cbn. apply elem_of_union. left.
        apply elem_of_singleton. reflexivity. }
      split; [exact Hin|].
      split; [unfold mark_failed; cbn; apply lookup_insert_eq|].
      split.
      * unfold k, sv1. destruct (delivered (frames sub)); [reflexivity|].
        apply (attempts_of_set sv relayUrl 0).
      * intros subs aborted. unfold listenToRelay.
        destruct (reconnectAttempts (mark_failed sv1 relayUrl) !! relayUrl);
          rewrite loop_failed by exact Hin; reflexivity.
  - intros subs more Hsubs k0 n.
    pose proof (fun more => loop_silent_failures relayUrl subs more sv Hnot Hsubs) as Hloop.
    cbv zeta in Hloop. fold k0 n in Hloop.
    split.
    + intros Hle. split; [|exact Hnot].
      rewrite listenToRelay_loop. fold k0.
      rewrite <- (app_nil_r subs) at 1. rewrite Hloop by lia.
      assert ((k0 + n <=? maxReconnectAttempts sv) = true) as -> by lia.
      cbn. rewrite app_nil_r. reflexivity.
    + intros Hgt. rewrite listenToRelay_loop. fold k0. rewrite Hloop by lia.
      assert ((k0 + n <=? maxReconnectAttempts sv) = false) as -> by lia.
      reflexivity.
  - intros sub. apply iteration_keeps_bounds, Hk.
Qed.

(** A relay whose stream ends at once, every time. *)
Definition dead : Subscription := mkSubscription [] Ended false false.
Definition relay : string := "wss://relay.example".

(** The supervisor after three and after five lost subscriptions in a
    row. *)
Definition after_three : Supervisor :=
  fst (listenToRelay relay (replicate 3 dead) false new_supervisor).

Definition after_five : Supervisor :=
  fst (listenToRelay relay (replicate 5 dead) false new_supervisor).

Definition hello : Event := mkEvent "e1" "p1" 1 0 [] "hi".
Definition late : Event := mkEvent "e2" "p1" 1 0 [] "too late".

(** C9, counterexample to the claim as stated: after five consecutive
    failures the counter has reached the maximum of 5, yet the relay is
    not marked failed and the loop goes on: a sixth subscription is
    opened after the last sleep of 60 s.  Only when that one is lost too
    is the relay marked. *)
Lemma counter_at_maximum_still_reconnects :
  attempts_of after_five relay = 5 /\
  maxReconnectAttempts after_five = 5 /\
  bool_decide (relay ∈ failedRelays after_five) = false /\
  snd (listenToRelay relay (replicate 6 dead) false new_supervisor)
    = [Subscribed relay; Slept 5000; Subscribed relay; Slept 10000;
       Subscribed relay; Slept 20000; Subscribed relay; Slept 40000;
       Subscribed relay; Slept 60000; Subscribed relay] /\
  bool_decide
    (relay ∈ failedRelays (fst (listenToRelay relay (replicate 6 dead) false new_supervisor)))
    = true.
Proof. vm_compute. auto 10. Qed.

(** The policy after three lost subscriptions (the counter reads 3):
    - a stream that throws without an event is followed by a sleep of
      40 s and the counter goes to 4;
    - a stream that delivers an event before the relay closes it is
      followed by a sleep of 5 s and the counter goes to 1; the event
      behind the CLOSED frame is not handed on;
    - two more lost subscriptions bring the counter to the maximum, 5,
      and the relay is not marked;
    - with three more, the third marks the relay failed without a sleep,
      and a stream that would deliver an event afterwards is never
      subscribed to. *)
Lemma reconnect_policy_witness :
  iteration relay (mkSubscription [EOSE] (Threw "Error") false false) after_three
    = (set_attempts after_three relay 4, [Subscribed relay; Slept 40000], Continue false) /\
  iteration relay (mkSubscription [EOSE; EVENT hello; CLOSED "bye"; EVENT late] Ended false false)
      after_three
    = (set_attempts after_three relay 1,
       [Subscribed relay; Handled hello relay; Slept 5000], Continue false) /\
  listenToRelay relay [dead; dead] false after_three
    = (set_attempts after_three relay 5,
       [Subscribed relay; Slept 40000; Subscribed relay; Slept 60000]) /\
  listenToRelay relay [dead; dead; dead; mkSubscription [EVENT hello] Ended false false]
      false after_three
    = (mark_failed (set_attempts after_three relay 5) relay,
       [Subscribed relay; Slept 40000; Subscribed relay; Slept 60000; Subscribed relay]).
Proof.
  assert (Hnot : relay ∉ failedRelays after_three).
  { vm_compute. intros H. discriminate H. }
  assert (Hk : 0 <= attempts_of after_three relay <= maxReconnectAttempts after_three).
  { vm_compute. split; discriminate. }
  assert (Hdead : forall l, Forall silent_failure l -> Forall silent_failure (dead :: l)).
  { intros l Hl. constructor; [repeat split|exact Hl]. }
  destruct (reconnect_policy relay after_three Hnot Hk) as (_ & Hone & Hrow & _).
  split; [|split; [|split]].
  - destruct (Hone (mkSubscription [EOSE] (Threw "Error") false false) eq_refl) as [Hlt _].
    apply Hlt. vm_compute. reflexivity.
  - destruct (Hone (mkSubscription [EOSE; EVENT hello; CLOSED "bye"; EVENT late]
                      Ended false false) eq_refl) as [Hlt _].
    apply Hlt. vm_compute. reflexivity.
  - destruct (Hrow [dead; dead] [] (Hdead _ (Hdead _ (List.Forall_nil _)))) as [Hle _].
    refine (proj1 (Hle _)). vm_compute. discriminate.
  - destruct (Hrow [dead; dead; dead] [mkSubscription [EVENT hello] Ended false false]
                (Hdead _ (Hdead _ (Hdead _ (List.Forall_nil _))))) as [_ Hgt].
    apply Hgt. vm_compute. reflexivity.
Defined.

(** An event on the stream resets the counter: after three failures, one
    delivered event makes the next delay 5 s again. *)
Example event_then_failure :
  let ev := mkEvent "e1" "p1" 1 0 [] "hi" in
  snd (listenToRelay relay
         [dead; dead; dead; mkSubscription [EOSE; EVENT ev] (Threw "Error") false false]
         false new_supervisor)
  = [Subscribed relay; Slept 5000; Subscribed relay; Slept 10000;
     Subscribed relay; Slept 20000; Subscribed relay; Handled ev relay; Slept 5000].
Proof. vm_compute. reflexivity. Qed.

End RelayFacts.

(** ** Strings: trimming and lower-casing *)

Module StringFacts.
Import JS.

Definition chars : string -> list ascii := list_ascii_of_string.

Fixpoint drop_spaces (l : list ascii) : list ascii :=
  match l with
  | c :: r => if is_space c then drop_spaces r else l
  | [] => []
  end.

Definition trimmed (l : list ascii) : list ascii :=
  rev (drop_spaces (rev (drop_spaces l))).

Definition head_ok (l : list ascii) : Prop :=
  match l with
  | [] => True
  | c :: _ => is_space c = false
  end.

Lemma chars_inj s t : chars s = chars t -> s = t.
Proof.
  intros H. rewrite <- (string_of_list_ascii_of_string s), <- (string_of_list_ascii_of_string t).
  unfold chars in H. rewrite H. reflexivity.
Qed.

Lemma chars_rev_string s : forall acc,
  chars (rev_string s acc) = (rev (chars s) ++ chars acc)%list.
Proof.
  induction s as [|c s IH]; intros acc; cbn; [reflexivity|].
  rewrite IH. cbn. rewrite <- app_assoc. reflexivity.
Qed.

Lemma chars_trimStart s : chars (trimStart s) = drop_spaces (chars s).
Proof.
  induction s as [|c s IH]; cbn; [reflexivity|].
  destruct (is_space c); [exact IH | reflexivity].
Qed.

Lemma chars_toLowerCase s : chars (toLowerCase s) = List.map lower_char (chars s).
Proof. induction s as [|c s IH]; cbn; [reflexivity|]. rewrite IH. reflexivity. Qed.

Lemma chars_trim s : chars (trim s) = trimmed (chars s).
Proof.
  unfold trim, trimEnd, trimmed.
  rewrite chars_rev_string, chars_trimStart, chars_rev_string, chars_trimStart.
  cbn. rewrite !app_nil_r. reflexivity.
Qed.

Lemma is_space_lower c : is_space (lower_char c) = is_space c.
Proof. destruct c as [[] [] [] [] [] [] [] []]; reflexivity. Qed.

Lemma lower_idem c : lower_char (lower_char c) = lower_char c.
Proof. destruct c as [[] [] [] [] [] [] [] []]; reflexivity. Qed.

Lemma drop_spaces_lower l :
  drop_spaces (List.map lower_char l) = List.map lower_char (drop_spaces l).
Proof.
  induction l as [|c l IH]; cbn; [reflexivity|].
  rewrite is_space_lower. destruct (is_space c); [exact IH | reflexivity].
Qed.

Lemma trimmed_lower l : trimmed (List.map lower_char l) = List.map lower_char (trimmed l).
Proof.
  unfold trimmed.
  rewrite drop_spaces_lower, <- map_rev, drop_spaces_lower, <- map_rev. reflexivity.
Qed.

Lemma drop_spaces_head_ok l : head_ok (drop_spaces l).
Proof.
  induction l as [|c l IH]; cbn; [exact I|].
  destruct (is_space c) eqn:E; [exact IH | exact E].
Qed.

Lemma drop_spaces_fixed l : head_ok l -> drop_spaces l = l.
Proof. destruct l as [|c l]; cbn; [reflexivity|]. intros ->. reflexivity. Qed.

Lemma drop_spaces_suffix l : exists sp, l = (sp ++ drop_spaces l)%list.
Proof.
  induction l as [|c l [sp IH]]; cbn.
  - exists []. reflexivity.
  - destruct (is_space c).
    + exists (c :: sp). cbn. rewrite <- IH. reflexivity.
    + exists []. reflexivity.
Qed.

Lemma head_ok_prefix (a b : list ascii) : head_ok (a ++ b)%list -> a <> [] -> head_ok a.
Proof. destruct a; cbn; [congruence | auto]. Qed.

Lemma trimmed_idem l : trimmed (trimmed l) = trimmed l.
Proof.
  unfold trimmed.
  set (m := drop_spaces l).
  set (x := drop_spaces (rev m)).
  assert (Hx : head_ok x) by apply drop_spaces_head_ok.
  assert (Hrx : head_ok (rev x)).
  { destruct (drop_spaces_suffix (rev m)) as [sp Hsp]. fold x in Hsp.
    assert (Hm : m = (rev x ++ rev sp)%list).
    { rewrite <- (rev_involutive m), Hsp, rev_app_distr. reflexivity. }
    destruct (rev x) as [|c r] eqn:E; [exact I|].
    pose proof (drop_spaces_head_ok l) as Hh. fold m in Hh. rewrite Hm in Hh. exact Hh. }
  rewrite (drop_spaces_fixed (rev x) Hrx), rev_involutive, (drop_spaces_fixed x Hx).
  reflexivity.
Qed.

(** Normalising a public key twice changes nothing more. *)
Lemma sanitizePubkey_idem pubkey :
  Database.sanitizePubkey (Database.sanitizePubkey pubkey) = Database.sanitizePubkey pubkey.
Proof.
  apply chars_inj. unfold Database.sanitizePubkey.
  rewrite !chars_toLowerCase, !chars_trim, chars_toLowerCase, chars_trim.
  rewrite trimmed_lower, trimmed_idem, List.map_map.
  apply List.map_ext. intros c. apply lower_idem.
Qed.

End StringFacts.

(** ** The session store *)

Module DatabaseFacts.
Import Database.

Lemma eqb_empty_false s : s <> "" -> String.eqb s "" = false.
Proof. intros H. apply String.eqb_neq. exact H. Qed.

Lemma slice_last_drop {A} (n : nat) (l : list A) :
  (0 < n)%nat -> slice_last n l = drop (length l - n) l.
Proof. destruct n; [lia|reflexivity]. Qed.

Lemma slice_last_length {A} (n : nat) (l : list A) :
  (0 < n)%nat -> length (slice_last n l) = Nat.min n (length l).
Proof. intros H. rewrite slice_last_drop by exact H. rewrite length_drop. lia. Qed.

Lemma slice_last_short {A} (n : nat) (l : list A) :
  (length l <= n)%nat -> slice_last n l = l.
Proof.
  intros H. destruct n; [reflexivity|]. unfold slice_last.
  replace (length l - S n)%nat with 0%nat by lia. reflexivity.
Qed.

(** [ensureSession] on a normalised key: the session has metadata
    afterwards; the log is left alone unless the session is new, in which
    case it starts empty; the markers are untouched. *)
Lemma ensureSession_spec db p requested metadata now_id now uuid :
  sanitizePubkey p = p -> p <> "" ->
  exists db1 er,
    ensureSession db p requested metadata now_id now uuid = (db1, Resolved er) /\
    is_Some (metas db1 !! metaKey p (er_sessionId er)) /\
    processedEvents db1 = processedEvents db /\
    logs db1 =
      match metas db !! metaKey p (er_sessionId er) with
      | Some _ => logs db
      | None => <[messagesKey p (er_sessionId er) := []]> (logs db)
      end.
Proof.
  intros Hp Hne. unfold ensureSession. rewrite Hp, (eqb_empty_false p Hne).
  match goal with |- context [metaKey p ?sid] => set (sessionId := sid) end.
  destruct (metas db !! metaKey p sessionId) as [sessionMeta|] eqn:Hm.
  - cbv zeta.
    repeat match goal with
      | |- context [let '(_, _) := (if ?c then _ else _) in _] => destruct c
      | |- context [let '(_, _) := match ?c with _ => _ end in _] => destruct c
      end;
    eexists _, _; (split; [reflexivity|]); cbn [er_sessionId]; rewrite ?Hm;
      cbn [metas logs processedEvents]; rewrite ?lookup_insert_eq, ?Hm; eauto.
  - eexists _, _. split; [reflexivity|]. cbn [er_sessionId metas logs processedEvents].
    rewrite lookup_insert_eq, Hm. eauto.
Qed.

(** The last [n] elements of a list that is longer than [n], said
    without [slice_last]: the list splits into the elements that are
    dropped and the [n] that are kept. *)
Lemma slice_last_suffix {A} (n : nat) (l : list A) :
  (0 < n)%nat ->
  l = (take (length l - n) l ++ slice_last n l)%list.
Proof. intros H. rewrite slice_last_drop by exact H. symmetry. apply take_drop. Qed.

(** A duplicate or a refused call leaves the store as it was. *)
Lemma saveMessage_unchanged db pubkey content fromBot metadata env db' r :
  saveMessage db pubkey content fromBot metadata env = (db', r) ->
  match r with
  | Rejected _ => True
  | Resolved res => duplicate res = true
  end ->
  db' = db.
Proof.
  unfold saveMessage.
  destruct (String.eqb (sanitizePubkey pubkey) "") eqn:Hp; [intros H; inversion H; auto|].
  apply String.eqb_neq in Hp.
  match goal with
  | |- context [match ?d with Some _ => _ | None => _ end] => destruct d as [marker|]
  end.
  { intros H; inversion H; auto. }
  match goal with
  | |- context [ensureSession db ?p ?r ?m ?i ?n ?u] =>
      destruct (ensureSession_spec db p r m i n u) as (db1 & er & Hens & _);
        [apply StringFacts.sanitizePubkey_idem | exact Hp |];
        rewrite Hens
  end.
  intros H. inversion H; subst. cbn. discriminate.
Qed.

(** [ensureSession] leaves every message count as it is; a new session
    starts at 0. *)
Lemma ensureSession_metas db p requested metadata now_id now uuid db1 er :
  ensureSession db p requested metadata now_id now uuid = (db1, Resolved er) ->
  let key := metaKey (sanitizePubkey p) (er_sessionId er) in
  (forall k, k <> key -> metas db1 !! k = metas db !! k) /\
  exists m,
    metas db1 !! key = Some m /\
    messageCount m =
      match metas db !! key with
      | Some m0 => messageCount m0
      | None => 0
      end.
Proof.
  unfold ensureSession.
  destruct (String.eqb (sanitizePubkey p) ""); [discriminate|].
  match goal with |- context [metaKey (sanitizePubkey p) ?sid] => set (sessionId := sid) end.
  destruct (metas db !! metaKey (sanitizePubkey p) sessionId) as [sessionMeta|] eqn:Hm.
  - cbv zeta.
    repeat match goal with
      | |- context [let '(_, _) := (if ?c then _ else _) in _] => destruct c
      | |- context [let '(_, _) := match ?c with _ => _ end in _] => destruct c
      end;
    intros H; inversion H; subst; cbn [er_sessionId metas]; rewrite ?Hm;
      (split; [intros k Hk; rewrite ?lookup_insert_ne by congruence; reflexivity|]);
      rewrite ?lookup_insert_eq, ?Hm; eauto.
  - intros H; inversion H; subst. cbn [er_sessionId metas]. rewrite Hm.
    split; [intros k Hk; rewrite lookup_insert_ne by congruence; reflexivity|].
    rewrite lookup_insert_eq. eauto.
Qed.

(** The invariant of the store: every session that has metadata counts
    exactly the messages of its log, and no log exceeds 1000 entries.
    Sessions are told apart by the key suffix [<principal>:<session-id>]. *)
Definition counts_ok (d : Db) : Prop :=
  forall x m,
    metas d !! ("session:meta:" ++ x) = Some m ->
    messageCount m = Z.of_nat (length (default [] (logs d !! ("session:messages:" ++ x)))) /\
    (length (default [] (logs d !! ("session:messages:" ++ x))) <= 1000)%nat.

Lemma metaKey_suffix p sid : metaKey p sid = "session:meta:" ++ (p ++ ":" ++ sid).
Proof. reflexivity. Qed.

Lemma messagesKey_suffix p sid : messagesKey p sid = "session:messages:" ++ (p ++ ":" ++ sid).
Proof. reflexivity. Qed.

Lemma meta_prefix_inj x y : "session:meta:" ++ x = "session:meta:" ++ y -> x = y.
Proof. cbn. intros H. inversion H as [H1]. exact H1. Qed.

Lemma messages_prefix_inj x y : "session:messages:" ++ x = "session:messages:" ++ y -> x = y.
Proof. cbn. intros H. inversion H as [H1]. exact H1. Qed.

(** Every [saveMessage] call keeps the invariant, for the session it
    writes and for all the others. *)
Lemma saveMessage_keeps_counts db pubkey content fromBot metadata env db' r :
  counts_ok db ->
  saveMessage db pubkey content fromBot metadata env = (db', r) ->
  counts_ok db'.
Proof.
  intros Hok Hsave.
  destruct r as [res|err].
  2: { rewrite (saveMessage_unchanged _ _ _ _ _ _ _ _ Hsave I). exact Hok. }
  destruct (duplicate res) eqn:Hdup.
  { rewrite (saveMessage_unchanged _ _ _ _ _ _ _ _ Hsave Hdup). exact Hok. }
  unfold saveMessage in Hsave.
  set (p := sanitizePubkey pubkey) in *.
  destruct (String.eqb p "") eqn:Hp; [inversion Hsave|].
  apply String.eqb_neq in Hp.
  match type of Hsave with
  | context [match ?d with Some _ => _ | None => _ end] => destruct d as [marker|]
  end.
  { inversion Hsave; subst. discriminate Hdup. }
  match type of Hsave with
  | context [ensureSession db p ?r ?m ?i ?n ?u] =>
      destruct (ensureSession_spec db p r m i n u) as (db1 & er & Hens & [meta0 Hmeta0] & _ & Hlogs1);
        [apply StringFacts.sanitizePubkey_idem | exact Hp |];
        pose proof (ensureSession_metas db p r m i n u db1 er Hens) as [Hother _];
        rewrite Hens in Hsave
  end.
  replace (sanitizePubkey p) with p in Hother
    by (symmetry; apply StringFacts.sanitizePubkey_idem).
  rewrite Hmeta0 in Hsave. injection Hsave as Hdb Hres.
  match type of Hdb with
  | context [<[messagesKey p (er_sessionId er) := ?l]> (logs db1)] => set (log := l) in *
  end.
  assert (Hlen : (length log <= 1000)%nat).
  { unfold log.
    match goal with
    | |- context [(1000 <? length ?l)%nat] => destruct (Nat.ltb_spec 1000 (length l))
    end; [rewrite slice_last_length by lia|]; lia. }
  intros x m Hx.
  destruct (String.eqb_spec x (p ++ ":" ++ er_sessionId er)) as [->|Hne].
  - fold (metaKey p (er_sessionId er)) in Hx. fold (messagesKey p (er_sessionId er)).
    rewrite <- Hdb in Hx |- *. cbn [metas logs] in *.
    rewrite lookup_insert_eq in Hx. rewrite lookup_insert_eq.
    inversion Hx; subst m. cbn [messageCount default]. auto.
  - assert (Hk1 : "session:meta:" ++ x <> metaKey p (er_sessionId er)).
    { rewrite metaKey_suffix. intros H. apply meta_prefix_inj in H. contradiction. }
    assert (Hk2 : "session:messages:" ++ x <> messagesKey p (er_sessionId er)).
    { rewrite messagesKey_suffix. intros H. apply messages_prefix_inj in H. contradiction. }
    rewrite <- Hdb in Hx |- *. cbn [metas logs] in *.
    rewrite lookup_insert_ne in Hx by congruence.
    rewrite lookup_insert_ne by congruence.
    rewrite (Hother _ Hk1) in Hx.
    assert (Hl : logs db1 !! ("session:messages:" ++ x) = logs db !! ("session:messages:" ++ x)).
    { rewrite Hlogs1. destruct (metas db !! metaKey p (er_sessionId er)); [reflexivity|].
      rewrite lookup_insert_ne by congruence. reflexivity. }
    rewrite Hl. apply Hok, Hx.
Qed.

Lemma counts_ok_empty : counts_ok empty.
Proof. intros x m H. cbn in H. rewrite lookup_empty in H. discriminate. Qed.

(** C6: after a [saveMessage] call that stores a message (it returns
    [duplicate: false]), the session's log is the previous log followed by
    the new record, with the oldest records cut off the front so that at
    most 1000 remain: the pushed log splits into the [dropped] records,
    which are the oldest [length previous + 1 - 1000] ones (none while the
    log has room), and the stored [log], which has
    [min 1000 (length previous + 1)] records and ends with the new one.
    The session metadata's [messageCount], and the count the call
    returns, are the length of that stored log.  For the other sessions
    nothing changes: if, before the call, every session counted the
    messages of its log and no log exceeded 1000 records, the same holds
    after it. *)
Theorem saveMessage_log_capped_and_counted
    (db : Db) (pubkey content : string) (fromBot : bool) (metadata : MessageOptions)
    (env : SaveEnv) (db' : Db) (res : SaveResult) :
  saveMessage db pubkey content fromBot metadata env = (db', Resolved res) ->
  duplicate res = false ->
  let p := sanitizePubkey pubkey in
  let sessionId := sr_sessionId res in
  (counts_ok db -> counts_ok db') /\
  exists (previous : list MessageRecord) (record : MessageRecord)
         (dropped log : list MessageRecord) (meta : SessionMeta),
    previous =
      match metas db !! metaKey p sessionId with
      | Some _ => default [] (logs db !! messagesKey p sessionId)
      | None => []
      end /\
    message record = content /\ isFromBot record = fromBot /\
    mr_pubkey record = p /\ mr_sessionId record = sessionId /\
    timestamp record = sr_timestamp res /\
    (previous ++ [record] = dropped ++ log)%list /\
    dropped = take (S (length previous) - 1000) previous /\
    length log = Nat.min 1000 (S (length previous)) /\
    last log = Some record /\
    logs db' !! messagesKey p sessionId = Some log /\
    (length log <= 1000)%nat /\
    metas db' !! metaKey p sessionId = Some meta /\
    messageCount meta = Z.of_nat (length log) /\
    sr_messageCount res = Some (Z.of_nat (length log)).
Proof.
  intros Hsave Hdup p sessionId.
  split; [intros Hok; exact (saveMessage_keeps_counts _ _ _ _ _ _ _ _ Hok Hsave)|].
  unfold saveMessage in Hsave. fold p in Hsave.
  destruct (String.eqb p "") eqn:Hp; [inversion Hsave|].
  apply String.eqb_neq in Hp.
  match type of Hsave with
  | context [match ?d with Some _ => _ | None => _ end] =>
      destruct d as [marker|] eqn:Hmarker
  end.
  { inversion Hsave; subst. discriminate Hdup. }
  match type of Hsave with
  | context [ensureSession db p ?r ?m ?i ?n ?u] =>
      destruct (ensureSession_spec db p r m i n u) as (db1 & er & Hens & [meta0 Hmeta] & Hproc & Hlogs);
        [apply StringFacts.sanitizePubkey_idem | exact Hp |];
        rewrite Hens in Hsave
  end.
  rewrite Hmeta in Hsave.
  injection Hsave as Hdb Hres.
  match type of Hres with
  | context [mkMessageRecord ?a ?b ?c ?d ?e ?f ?g ?h ?i ?j] =>
      set (record := mkMessageRecord a b c d e f g h i j) in *
  end.
  assert (Hsid : sessionId = er_sessionId er) by (unfold sessionId; rewrite <- Hres; reflexivity).
  set (previous := match metas db !! metaKey p sessionId with
                   | Some _ => default [] (logs db !! messagesKey p sessionId)
                   | None => []
                   end).
  assert (Hprev : default [] (logs db1 !! messagesKey p (er_sessionId er)) = previous).
  { unfold previous. rewrite Hlogs, <- Hsid.
    destruct (metas db !! metaKey p sessionId); [reflexivity|].
    rewrite lookup_insert_eq. reflexivity. }
  rewrite Hprev in *.
  set (pushed := (previous ++ [record])%list) in *.
  assert (Hpushed : length pushed = S (length previous)).
  { unfold pushed. rewrite length_app. cbn. lia. }
  assert (Hlog : (if (1000 <? length pushed)%nat then slice_last 1000 pushed else pushed)
                 = slice_last 1000 pushed).
  { destruct (Nat.ltb_spec 1000 (length pushed)); [reflexivity|].
    symmetry. apply slice_last_short. lia. }
  rewrite Hlog in *.
  assert (Hlen : length (slice_last 1000 pushed) = Nat.min 1000 (S (length previous))).
  { rewrite slice_last_length by lia. rewrite Hpushed. reflexivity. }
  assert (Hsplit : pushed
                   = (take (S (length previous) - 1000) previous ++ slice_last 1000 pushed)%list).
  { rewrite (slice_last_suffix 1000 pushed) at 1 by lia. f_equal.
    rewrite Hpushed. unfold pushed. apply take_app_le. lia. }
  assert (Hlast : last (slice_last 1000 pushed) = Some record).
  { rewrite slice_last_drop by lia. rewrite Hpushed. unfold pushed.
    rewrite drop_app_le by lia. apply last_snoc. }
  exists previous, record, (take (S (length previous) - 1000) previous),
         (slice_last 1000 pushed).
  eexists. split; [reflexivity|].
  split; [reflexivity|]. split; [reflexivity|]. split; [reflexivity|].
  split; [exact (eq_sym Hsid)|].
  split; [rewrite <- Hres; reflexivity|].
  split; [exact Hsplit|]. split; [reflexivity|].
  split; [exact Hlen|]. split; [exact Hlast|].
  rewrite Hsid. subst db'. cbn [logs metas].
  split; [apply lookup_insert_eq|].
  split; [rewrite Hlen; lia|].
  split; [apply lookup_insert_eq|].
  split; [reflexivity | rewrite <- Hres; reflexivity].
Qed.

(** The first message of a conversation, and a message added to a full
    log. *)
Definition question : MessageOptions :=
  mkMessageOptions None (Some "e1") (Some "s1") None (Some 4) None (Some "question") None None.

Definition env0 : SaveEnv := mkSaveEnv 1000 1001 1002 "0123456789abcdef".

Definition filler : MessageRecord :=
  mkMessageRecord "p1" "s1" "old" false 1 "question" None None (Some 4) None.

Definition full_db : Db :=
  mkDb {[ metaKey "p1" "s1" := mkSessionMeta "p1" "s1" 0 1 1000 (Some "dm") None None ]}
       {[ messagesKey "p1" "s1" := replicate 1000 filler ]} ∅ ∅.

Lemma counts_ok_full_db : counts_ok full_db.
Proof.
  intros x m H. unfold full_db in H. cbn [metas] in H.
  apply lookup_singleton_Some in H as [Hk <-].
  rewrite metaKey_suffix in Hk. apply meta_prefix_inj in Hk. subst x.
  unfold full_db. cbn [logs]. fold (messagesKey "p1" "s1").
  rewrite lookup_singleton_eq. cbn [default messageCount]. unfold id.
  rewrite length_replicate. split; [reflexivity | lia].
Qed.

Example save_into_full_log :
  let '(db', r) := saveMessage full_db " P1 " "Hello" false question env0 in
  exists log meta,
    logs db' !! messagesKey "p1" "s1" = Some log /\ length log = 1000%nat /\
    (message <$> last log) = Some "Hello" /\ (message <$> head log) = Some "old" /\
    metas db' !! metaKey "p1" "s1" = Some meta /\ messageCount meta = 1000 /\
    r = Resolved (mkSaveResult false "s1" 1000 (Some 1000)).
Proof. vm_compute. eexists _, _. repeat split; reflexivity. Qed.

(** A message saved into a log that already holds 1000 records: one
    record, the oldest, is dropped and the new one is the last of 1000. *)
Lemma saveMessage_log_witness :
  exists record dropped log meta,
    (replicate 1000 filler ++ [record] = dropped ++ log)%list /\
    dropped = [filler] /\
    message record = "Hello" /\
    length log = 1000%nat /\
    last log = Some record /\
    logs (fst (saveMessage full_db " P1 " "Hello" false question env0)) !! messagesKey "p1" "s1"
      = Some log /\
    metas (fst (saveMessage full_db " P1 " "Hello" false question env0)) !! metaKey "p1" "s1"
      = Some meta /\
    messageCount meta = 1000 /\
    counts_ok (fst (saveMessage full_db " P1 " "Hello" false question env0)).
Proof.
  destruct (saveMessage_log_capped_and_counted full_db " P1 " "Hello" false question env0
              (fst (saveMessage full_db " P1 " "Hello" false question env0))
              (mkSaveResult false "s1" 1000 (Some 1000)))
    as (Hkeep & previous & record & dropped & log & meta & Hprev & Hmsg & _ & _ & _ & _
        & Hsplit & Hdropped & Hlen & Hlast & Hlog & _ & Hmeta & Hcount & _).
  - vm_compute. reflexivity.
  - reflexivity.
  - assert (Hfull : previous = replicate 1000 filler).
    { rewrite Hprev. vm_compute. reflexivity. }
    clear Hprev. subst previous. rewrite length_replicate in Hdropped, Hlen.
    exists record, dropped, log, meta.
    split; [exact Hsplit|]. split; [rewrite Hdropped; reflexivity|].
    split; [exact Hmsg|]. split; [exact Hlen|]. split; [exact Hlast|].
    split; [exact Hlog|]. split; [exact Hmeta|].
    split; [rewrite Hcount, Hlen; reflexivity|].
    apply Hkeep, counts_ok_full_db.
Defined.

End DatabaseFacts.

(** ** The processor: one event, one reply, one debit *)

Module ProcessorFacts.
Import Database Bot.

(** *** Counting in the store and in the effects *)

Definition has_id (e : string) (r : MessageRecord) : bool :=
  match eventId r with
  | Some x => String.eqb x e
  | None => false
  end.

Fixpoint count_id (e : string) (log : list MessageRecord) : nat :=
  match log with
  | [] => 0
  | r :: rest => ((if has_id e r then 1 else 0) + count_id e rest)%nat
  end.

(** The number of records with source event-id [e] in the log stored
    under key [k]. *)
Definition stored (e : string) (d : Db) (k : string) : nat :=
  count_id e (default [] (logs d !! k)).

Definition marked (e : string) (d : Db) : Prop :=
  is_Some (processedEvents d !! eventKey e).

(** All session logs together hold at most one record with source
    event-id [e]. *)
Definition at_most_one (e : string) (d : Db) : Prop :=
  exists k0, forall k, (stored e d k <= if decide (k = k0) then 1 else 0)%nat.

Definition clean (e : string) (d : Db) : Prop := forall k, stored e d k = 0%nat.

(** A store is consistent for [e] when it holds at most one record for
    it, and none at all as long as [e] is not marked processed. *)
Definition consistent (e : string) (d : Db) : Prop :=
  at_most_one e d /\ (~ marked e d -> clean e d).

(** Replies are the messages of the normal paths: answers and the
    balance, insufficient-funds and payment notices.  The error notice of
    the [catch] block is counted apart, see [is_error_notice]. *)
Definition is_reply (x : Effect) : bool :=
  match x with
  | DM ErrorNotice _ _ _ => false
  | DM _ _ _ _ => true
  | PublicReply ErrorNotice _ _ _ => false
  | PublicReply _ _ _ _ => true
  | _ => false
  end.

Definition is_debit (x : Effect) : bool :=
  match x with
  | Debit _ _ => true
  | _ => false
  end.

Fixpoint count (f : Effect -> bool) (effs : list Effect) : nat :=
  match effs with
  | [] => 0
  | x :: rest => ((if f x then 1 else 0) + count f rest)%nat
  end.

Definition replies : list Effect -> nat := count is_reply.
Definition debits : list Effect -> nat := count is_debit.

(** Every message the bot sends to a user, whatever its purpose; the
    error notices among them. *)
Definition is_message (x : Effect) : bool :=
  match x with
  | DM _ _ _ _ => true
  | PublicReply _ _ _ _ => true
  | _ => false
  end.

Definition is_error_notice (x : Effect) : bool :=
  match x with
  | DM ErrorNotice _ _ _ => true
  | PublicReply ErrorNotice _ _ _ => true
  | _ => false
  end.

Definition messages : list Effect -> nat := count is_message.
Definition error_notices : list Effect -> nat := count is_error_notice.

(** The runs of [deliver], in order: the event, what its run emitted and
    how it ended. *)
Record Run := mkRun {
  run_event : Event;
  run_effects : list Effect;
  run_outcome : outcome unit;
}.

Fixpoint runs (s : State) (ds : list (Event * Delivery)) : list Run :=
  match ds with
  | [] => []
  | (event, d) :: rest =>
      let '(s1, effs, r) := processMessage s event d in
      mkRun event effs r :: runs s1 rest
  end.

Definition of_event (e : string) (r : Run) : bool := String.eqb (id (run_event r)) e.

Definition threw (r : Run) : bool := negb (is_resolved (run_outcome r)).

(** What the runs on events with id [e] emitted, and how many of them
    threw. *)
Definition emitted_for (e : string) (s : State) (ds : list (Event * Delivery)) : list Effect :=
  List.concat (List.map run_effects (List.filter (of_event e) (runs s ds))).

Definition failed_runs (e : string) (s : State) (ds : list (Event * Delivery)) : nat :=
  length (List.filter (fun r => of_event e r && threw r) (runs s ds)).


Lemma count_app f (a b : list Effect) : count f (a ++ b) = (count f a + count f b)%nat.
Proof. induction a as [|x a IH]; cbn; [reflexivity|]. rewrite IH. lia. Qed.

Lemma messages_split effs : messages effs = (replies effs + error_notices effs)%nat.
Proof.
  unfold messages, replies, error_notices.
  induction effs as [|x effs IH]; cbn; [reflexivity|]. rewrite IH.
  destruct x as [why ? ? ?|why ? ? ?| | |]; try destruct why; cbn; lia.
Qed.

(** [deliver] emits what its runs emit, in order. *)
Lemma deliver_runs : forall ds s,
  snd (deliver s ds) = List.concat (List.map run_effects (runs s ds)).
Proof.
  induction ds as [|[event d] ds IH]; intros s; cbn [deliver runs]; [reflexivity|].
  destruct (processMessage s event d) as [[s1 effs] r].
  specialize (IH s1). destruct (deliver s1 ds) as [s2 effs2]. cbn in *.
  rewrite IH. reflexivity.
Qed.

(** When every delivery is of an event with id [e], the runs on [e]
    emitted all there is. *)
Lemma emitted_for_all e : forall ds s,
  Forall (fun x => id (fst x) = e) ds ->
  emitted_for e s ds = snd (deliver s ds).
Proof.
  intros ds s Hall. rewrite deliver_runs. unfold emitted_for. f_equal. f_equal.
  revert s. induction ds as [|[event d] ds IH]; intros s; cbn [runs]; [reflexivity|].
  apply Forall_cons in Hall as [Hid Hrest]. cbn [fst] in Hid.
  destruct (processMessage s event d) as [[s1 effs] r]. cbn [List.filter].
  unfold of_event at 1. cbn [run_event]. rewrite Hid, String.eqb_refl.
  f_equal. apply IH, Hrest.
Qed.

Lemma count_id_app e (a b : list MessageRecord) :
  count_id e (a ++ b) = (count_id e a + count_id e b)%nat.
Proof. induction a as [|x a IH]; cbn; [reflexivity|]. rewrite IH. lia. Qed.

Lemma count_id_drop e n : forall log : list MessageRecord,
  (count_id e (drop n log) <= count_id e log)%nat.
Proof.
  induction n as [|n IH]; intros [|r log]; cbn; try lia.
  specialize (IH log). lia.
Qed.

Lemma eventKey_inj a b : eventKey a = eventKey b -> a = b.
Proof. unfold eventKey. cbn. intros H. inversion H as [H1]. exact H1. Qed.

Lemma nonempty_some e : e <> "" -> nonempty (Some e) = Some e.
Proof.
  intros H. unfold nonempty, ZapDb.str_or_null.
  rewrite (DatabaseFacts.eqb_empty_false e H). reflexivity.
Qed.

Lemma nonempty_inv o x : nonempty o = Some x -> o = Some x.
Proof.
  unfold nonempty, ZapDb.str_or_null. destruct o as [y|]; [|discriminate].
  destruct (String.eqb y ""); [discriminate|]. auto.
Qed.

(** *** What [saveMessage] does to the records of an event *)

(** The store after a call that stored a message. *)
Lemma saveMessage_stored db pubkey content fromBot metadata env db' res :
  saveMessage db pubkey content fromBot metadata env = (db', Resolved res) ->
  duplicate res = false ->
  exists key previous record marker,
    eventId record = nonempty (mo_eventId metadata) /\
    (previous = default [] (logs db !! key) \/ previous = []) /\
    logs db' = <[key := slice_last 1000 (previous ++ [record])%list]> (logs db) /\
    processedEvents db' =
      match nonempty (mo_eventId metadata) with
      | Some eid => <[eventKey eid := marker]> (processedEvents db)
      | None => processedEvents db
      end /\
    match nonempty (mo_eventId metadata) with
    | Some eid => processedEvents db !! eventKey eid = None
    | None => True
    end.
Proof.
  intros Hsave Hdup. unfold saveMessage in Hsave.
  set (p := sanitizePubkey pubkey) in *.
  destruct (String.eqb p "") eqn:Hp; [inversion Hsave|].
  apply String.eqb_neq in Hp.
  match type of Hsave with
  | context [match ?d with Some _ => _ | None => _ end] =>
      destruct d as [marker|] eqn:Hmarker
  end.
  { inversion Hsave; subst. discriminate Hdup. }
  match type of Hsave with
  | context [ensureSession db p ?r ?m ?i ?n ?u] =>
      destruct (DatabaseFacts.ensureSession_spec db p r m i n u)
        as (db1 & er & Hens & [meta0 Hmeta] & Hproc & Hlogs);
        [apply StringFacts.sanitizePubkey_idem | exact Hp |];
        rewrite Hens in Hsave
  end.
  rewrite Hmeta in Hsave.
  injection Hsave as Hdb Hres. subst db'.
  match goal with
  | |- context [mkMessageRecord ?a ?b ?c ?d ?e ?f ?g ?h ?i ?j] =>
      set (record := mkMessageRecord a b c d e f g h i j) in *
  end.
  set (key := messagesKey p (er_sessionId er)) in *.
  set (previous := default [] (logs db1 !! key)) in *.
  set (pushed := (previous ++ [record])%list) in *.
  assert (Hlog : (if (1000 <? length pushed)%nat then slice_last 1000 pushed else pushed)
                 = slice_last 1000 pushed).
  { destruct (Nat.ltb_spec 1000 (length pushed)); [reflexivity|].
    symmetry. apply DatabaseFacts.slice_last_short. lia. }
  rewrite Hlog.
  exists key, previous, record.
  eexists (mkMarker (er_sessionId er) _ true).
  split; [reflexivity|]. cbn [logs processedEvents]. rewrite Hproc.
  split; [|split; [|split]].
  - unfold previous. rewrite Hlogs.
    destruct (metas db !! metaKey p (er_sessionId er)); [left; reflexivity|].
    right. rewrite lookup_insert_eq. reflexivity.
  - rewrite Hlogs. destruct (metas db !! metaKey p (er_sessionId er)); [reflexivity|].
    apply insert_insert_eq.
  - destruct (nonempty (mo_eventId metadata)); reflexivity.
  - destruct (nonempty (mo_eventId metadata)); [exact Hmarker | exact I].
Qed.

Lemma stored_insert e db db' key log :
  logs db' = <[key := log]> (logs db) ->
  forall k, stored e db' k = if decide (k = key) then count_id e log else stored e db k.
Proof.
  intros H k. unfold stored. rewrite H.
  destruct (decide (k = key)) as [->|Hne].
  - rewrite lookup_insert_eq. reflexivity.
  - rewrite lookup_insert_ne by congruence. reflexivity.
Qed.

(** Storing a message adds at most the new record to the records of [e],
    and only when it carries [e]. *)
Lemma saveMessage_adds e db pubkey content fromBot metadata env db' res :
  saveMessage db pubkey content fromBot metadata env = (db', Resolved res) ->
  duplicate res = false ->
  exists k0, forall k,
    (stored e db' k <=
       stored e db k +
       if decide (k = k0)
       then (if decide (nonempty (mo_eventId metadata) = Some e) then 1 else 0)
       else 0)%nat.
Proof.
  intros Hsave Hdup.
  destruct (saveMessage_stored _ _ _ _ _ _ _ _ Hsave Hdup)
    as (key & previous & record & marker & Hid & Hprev & Hlogs & _).
  exists key. intros k. rewrite (stored_insert e db db' key _ Hlogs k).
  destruct (decide (k = key)) as [->|Hne]; [|lia].
  rewrite DatabaseFacts.slice_last_drop by lia.
  etransitivity; [apply count_id_drop|].
  rewrite count_id_app. cbn. unfold has_id. rewrite Hid.
  assert (Hp : (count_id e previous <= stored e db key)%nat).
  { destruct Hprev as [-> | ->]; [reflexivity | cbn; lia]. }
  destruct (nonempty (mo_eventId metadata)) as [x|] eqn:Hx.
  - destruct (String.eqb_spec x e) as [->|Hne]; repeat case_decide; try congruence; lia.
  - repeat case_decide; lia.
Qed.

(** Once [e] is marked, no call stores another record for it, and the
    mark stays. *)
Lemma saveMessage_after_mark e db pubkey content fromBot metadata env db' r :
  e <> "" -> marked e db ->
  saveMessage db pubkey content fromBot metadata env = (db', r) ->
  marked e db' /\ forall k, (stored e db' k <= stored e db k)%nat.
Proof.
  intros He Hm Hsave.
  destruct r as [res|err].
  2: { rewrite (DatabaseFacts.saveMessage_unchanged _ _ _ _ _ _ _ _ Hsave I). auto. }
  destruct (duplicate res) eqn:Hdup.
  { rewrite (DatabaseFacts.saveMessage_unchanged _ _ _ _ _ _ _ _ Hsave Hdup). auto. }
  destruct (saveMessage_stored _ _ _ _ _ _ _ _ Hsave Hdup)
    as (key & previous & record & marker & Hid & Hprev & Hlogs & Hproc & Hfresh).
  destruct (saveMessage_adds e _ _ _ _ _ _ _ _ Hsave Hdup) as (k0 & Hadd).
  assert (Hne : nonempty (mo_eventId metadata) <> Some e).
  { intros Heq. rewrite Heq in Hfresh. destruct Hm as [m Hm]. congruence. }
  split.
  - unfold marked. rewrite Hproc.
    destruct (nonempty (mo_eventId metadata)) as [x|]; [|exact Hm].
    rewrite lookup_insert_ne; [exact Hm|].
    intros Heq. apply eventKey_inj in Heq. congruence.
  - intros k. specialize (Hadd k). repeat case_decide; try contradiction; lia.
Qed.

(** The first call for an unmarked [e]: it is refused and changes
    nothing, or it stores one record and marks [e]. *)
Lemma saveMessage_first e db pubkey content fromBot metadata env db' r :
  e <> "" -> mo_eventId metadata = Some e ->
  saveMessage db pubkey content fromBot metadata env = (db', r) ->
  match r with
  | Rejected _ => db' = db
  | Resolved res =>
      if duplicate res then db' = db /\ marked e db
      else
        marked e db' /\
        exists k0, forall k,
          (stored e db' k <= stored e db k + if decide (k = k0) then 1 else 0)%nat
  end.
Proof.
  intros He Hid Hsave.
  destruct r as [res|err].
  2: { apply (DatabaseFacts.saveMessage_unchanged _ _ _ _ _ _ _ _ Hsave I). }
  destruct (duplicate res) eqn:Hdup.
  - split; [apply (DatabaseFacts.saveMessage_unchanged _ _ _ _ _ _ _ _ Hsave Hdup)|].
    unfold saveMessage in Hsave.
    destruct (String.eqb (sanitizePubkey pubkey) ""); [inversion Hsave|].
    rewrite Hid, (nonempty_some e He) in Hsave.
    destruct (processedEvents db !! eventKey e) as [m|] eqn:Hm; [eexists; exact Hm|].
    exfalso.
    match type of Hsave with
    | context [ensureSession ?a ?b ?c ?d ?f ?g ?h] => destruct (ensureSession a b c d f g h) as [db1 [er|err]]
    end; inversion Hsave; subst; discriminate.
  - destruct (saveMessage_stored _ _ _ _ _ _ _ _ Hsave Hdup)
      as (key & previous & record & marker & _ & _ & _ & Hproc & _).
    destruct (saveMessage_adds e _ _ _ _ _ _ _ _ Hsave Hdup) as (k0 & Hadd).
    rewrite Hid, (nonempty_some e He) in Hproc.
    split.
    + unfold marked. rewrite Hproc, lookup_insert_eq. eauto.
    + exists k0. intros k. specialize (Hadd k). rewrite Hid, (nonempty_some e He) in Hadd.
      repeat case_decide; try congruence; lia.
Qed.

(** A call for a marked [e] is a duplicate (or is refused for its
    public key); the store does not change. *)
Lemma saveMessage_replay e db pubkey content fromBot metadata env db' r :
  e <> "" -> marked e db -> mo_eventId metadata = Some e ->
  saveMessage db pubkey content fromBot metadata env = (db', r) ->
  db' = db /\
  match r with
  | Resolved res => duplicate res = true
  | Rejected _ => sanitizePubkey pubkey = ""
  end.
Proof.
  intros He [m Hm] Hid. unfold saveMessage.
  destruct (String.eqb_spec (sanitizePubkey pubkey) "") as [Hp|Hp].
  - intros H; inversion H; subst. auto.
  - rewrite Hid, (nonempty_some e He), Hm. intros H; inversion H; subst. auto.
Qed.

(** *** What one run of the processor emits *)

Lemma respond_counts s d why event text sessionId :
  why <> ErrorNotice ->
  (replies (fst (respond s d why event text sessionId)) <= 1)%nat /\
  debits (fst (respond s d why event text sessionId)) = 0%nat.
Proof.
  intros Hwhy. unfold respond, sendDM, sendReply.
  destruct (kind event =? 4), (nip04 s), (signed d 0), why; cbn; try congruence; lia.
Qed.

Lemma error_notice_counts s d n recipient text sessionId :
  replies (fst (sendDM s d n ErrorNotice recipient text sessionId)) = 0%nat /\
  debits (fst (sendDM s d n ErrorNotice recipient text sessionId)) = 0%nat.
Proof. unfold sendDM. destruct (nip04 s), (signed d n); cbn; auto. Qed.

(** The notice branches: they send at most one reply, take no debit, call
    no AI and add no record for a marked event. *)
Lemma finish_with_notice_spec e s d event why text messageType sessionId before after :
  e <> "" -> marked e (db s) -> why <> ErrorNotice ->
  replies before = 0%nat -> debits before = 0%nat ->
  replies after = 0%nat -> debits after = 0%nat ->
  let '(s', effs, _) :=
    finish_with_notice s d event why text messageType sessionId before after in
  marked e (db s') /\ (forall k, (stored e (db s') k <= stored e (db s) k)%nat) /\
  zapDb s' = zapDb s /\ ai s' = ai s /\ breaker s' = breaker s /\
  (replies effs <= 1)%nat /\ debits effs = 0%nat.
Proof.
  intros He Hm Hwhy Hb1 Hb2 Ha1 Ha2. unfold finish_with_notice.
  pose proof (respond_counts s d why event text sessionId Hwhy) as [Hr Hd].
  destruct (respond s d why event text sessionId) as [effs [eid|err]]; cbn [fst] in *.
  - destruct (saveMessage (db s) (pubkey event) text true
                (notice_options event messageType sessionId) (save_answer d))
      as [db' [res|err]] eqn:Hsave;
    destruct (saveMessage_after_mark e _ _ _ _ _ _ _ _ He Hm Hsave) as [Hm' Hst];
    cbn [db zapDb ai breaker set_db]; unfold replies, debits in *;
    rewrite ?count_app; repeat split; auto; lia.
  - unfold replies, debits in *. rewrite ?count_app. repeat split; auto; lia.
Qed.

(** Walking through the branches of [process_body] up to the point
    where the question is saved. *)
Ltac head_scrutinee t :=
  lazymatch t with
  | (if ?c then _ else _) => head_scrutinee c
  | (match ?c with _ => _ end) => head_scrutinee c
  | _ => t
  end.

Ltac walk :=
  repeat (lazymatch goal with
          | |- match ?X with _ => _ end =>
              let h := head_scrutinee X in
              lazymatch h with
              | saveMessage _ _ _ _ _ _ => fail
              | _ => destruct h eqn:?; cbv beta iota zeta
              end
          end).

Ltac at_leaf tac :=
  lazymatch goal with
  | |- match _ with _ => _ end => idtac
  | _ => tac
  end.

Ltac state_fields :=
  cbn [db zapDb ai breaker processedMessages nip04 errors
       set_db set_zapDb set_ai set_processedMessages bump_errors].

(** A replay: the event-id is already marked.  The processor stops at
    the duplicate at the latest; it emits nothing and leaves the store,
    the balances and the AI client as they are. *)
Lemma process_body_replay e s event d :
  e <> "" -> id event = e -> marked e (db s) ->
  let '(s', effs, _) := process_body s event d in
  db s' = db s /\ zapDb s' = zapDb s /\ ai s' = ai s /\ breaker s' = breaker s /\ effs = [].
Proof.
  intros He Hid Hm. unfold process_body. cbv beta iota zeta.
  walk.
  all: at_leaf ltac:(auto 10).
  all: lazymatch goal with
       | |- context [saveMessage ?a ?b ?c ?f ?g ?h] =>
           destruct (saveMessage a b c f g h) as [db1 r] eqn:Hsave;
           pose proof (fun H => saveMessage_replay e _ _ _ _ _ _ _ _ He Hm H Hsave) as Hrep;
           destruct Hrep as [-> Hdup]; [cbn; congruence|]
       end.
  all: destruct r as [res|err]; cbv beta iota zeta; [rewrite Hdup|]; state_fields; auto 10.
Qed.

(** After the question is saved: at most one reply and one debit, and no
    further record for the marked event-id. *)
Lemma answer_question_spec e s event d messageContent userMetadata sessionId :
  e <> "" -> marked e (db s) ->
  let '(s', effs, _) := answer_question s event d messageContent userMetadata sessionId in
  marked e (db s') /\ (forall k, (stored e (db s') k <= stored e (db s) k)%nat) /\
  (replies effs <= 1)%nat /\ (debits effs <= 1)%nat.
Proof.
  intros He Hm. unfold answer_question.
  assert (Hnotice : forall why text mt before after,
    why <> ErrorNotice ->
    replies before = 0%nat -> debits before = 0%nat ->
    replies after = 0%nat -> debits after = 0%nat ->
    let '(s', effs, _) := finish_with_notice s d event why text mt sessionId before after in
    marked e (db s') /\ (forall k, (stored e (db s') k <= stored e (db s) k)%nat) /\
    (replies effs <= 1)%nat /\ (debits effs <= 1)%nat).
  { intros why text mt before after Hwhy Hb1 Hb2 Ha1 Ha2.
    pose proof (finish_with_notice_spec e s d event why text mt sessionId before after
                  He Hm Hwhy Hb1 Hb2 Ha1 Ha2) as Hspec.
    destruct (finish_with_notice s d event why text mt sessionId before after) as [[s' effs] r].
    destruct Hspec as (Hm' & Hst & _ & _ & _ & Hr & Hd).
    repeat split; auto; lia. }
  destruct (isBalanceRequest messageContent).
  { apply Hnotice; cbn; auto; discriminate. }
  cbv zeta.
  destruct (JS.num_lt _ _).
  { apply Hnotice; cbn; auto; discriminate. }
  destruct (ZapDb.deductFromBalance _ _ _ _) as [zapDb1 [newBalance|]].
  2: { apply Hnotice; cbn; auto; discriminate. }
  destruct (Gemini.generateResponse _ _ _ _ _) as [[b' w'] [response|]].
  2: { state_fields. cbn. repeat split; auto; lia. }
  lazymatch goal with
  | |- context [respond ?s2 d Answer event response sessionId] =>
      pose proof (respond_counts s2 d Answer event response sessionId ltac:(discriminate))
        as [Hr Hd];
      destruct (respond s2 d Answer event response sessionId) as [effs [responseEventId|err]]
  end; cbn [fst] in *.
  2: { state_fields. unfold replies, debits in *. rewrite !count_app. cbn.
       repeat split; auto; lia. }
  lazymatch goal with
  | |- context [saveMessage ?a ?b ?c ?f ?g ?h] =>
      destruct (saveMessage a b c f g h) as [db2 r2] eqn:Hsave2;
      destruct (saveMessage_after_mark e _ _ _ _ _ _ _ _ He Hm Hsave2) as [Hm2 Hst2]
  end.
  destruct r2 as [res2|err2]; state_fields;
    unfold replies, debits in *; rewrite !count_app; cbn; repeat split; auto; lia.
Qed.

(** Any run: it sends at most one reply and takes at most one debit;
    either it changes neither store nor balances and sends nothing, or it
    has marked the event-id and stored at most one record for it. *)
Lemma process_body_once e s event d :
  e <> "" -> id event = e ->
  let '(s', effs, _) := process_body s event d in
  ((replies effs <= 1)%nat /\ (debits effs <= 1)%nat) /\
  ((db s' = db s /\ zapDb s' = zapDb s /\ ai s' = ai s /\ breaker s' = breaker s /\
    effs = []) \/
   (marked e (db s') /\
    exists k0, forall k,
      (stored e (db s') k <= stored e (db s) k + if decide (k = k0) then 1 else 0)%nat)).
Proof.
  intros He Hid. unfold process_body. cbv beta iota zeta.
  walk.
  all: at_leaf ltac:(cbn; auto 10).
  all: lazymatch goal with
       | |- context [saveMessage ?a ?b ?c ?f ?g ?h] =>
           destruct (saveMessage a b c f g h) as [db1 r] eqn:Hsave;
           assert (Hfirst := fun H => saveMessage_first e _ _ _ _ _ _ _ _ He H Hsave);
           specialize (Hfirst ltac:(cbn; congruence))
       end.
  all: state_fields.
  all: destruct r as [res|err]; cbv beta iota zeta;
       [| subst db1; state_fields; cbn; auto 10].
  all: destruct (duplicate res) eqn:Hdup;
       [destruct Hfirst as [-> _]; state_fields; cbn; auto 10|].
  all: destruct Hfirst as [Hm (k0 & Hk0)].
  all: lazymatch goal with
       | |- context [answer_question ?s1 ?ev ?dl ?mc ?um ?sid] =>
           pose proof (answer_question_spec _ s1 ev dl mc um sid He Hm) as Hspec;
           destruct (answer_question s1 ev dl mc um sid) as [[s' effs] r']
       end.
  all: destruct Hspec as (Hm' & Hst & Hr & Hd).
  all: split; [split; assumption|]; right; split; [exact Hm'|];
       exists k0; intros k; specialize (Hst k); specialize (Hk0 k);
       cbn [db set_db set_processedMessages] in Hst, Hk0; lia.
Qed.

(** The same two facts for [processMessage], whose [catch] block may add
    an error notice. *)
Lemma processMessage_replay e s event d :
  e <> "" -> id event = e -> marked e (db s) ->
  let '(s', effs, _) := processMessage s event d in
  db s' = db s /\ zapDb s' = zapDb s /\ ai s' = ai s /\ breaker s' = breaker s /\
  replies effs = 0%nat /\ debits effs = 0%nat.
Proof.
  intros He Hid Hm. unfold processMessage.
  pose proof (process_body_replay e s event d He Hid Hm) as Hbody.
  destruct (process_body s event d) as [[s1 effs1] [u|err]];
    destruct Hbody as (H1 & H2 & H3 & H4 & ->).
  - cbn. auto 10.
  - state_fields. cbn [app].
    destruct (kind event =? 4).
    + pose proof (error_notice_counts (bump_errors s1) d 1 (pubkey event) processingErrorMsg None)
        as [Hr Hd].
      auto 10.
    + cbn. auto 10.
Qed.

Lemma processMessage_once e s event d :
  e <> "" -> id event = e ->
  let '(s', effs, _) := processMessage s event d in
  ((replies effs <= 1)%nat /\ (debits effs <= 1)%nat) /\
  ((db s' = db s /\ zapDb s' = zapDb s /\ ai s' = ai s /\ breaker s' = breaker s /\
    replies effs = 0%nat /\ debits effs = 0%nat) \/
   (marked e (db s') /\
    exists k0, forall k,
      (stored e (db s') k <= stored e (db s) k + if decide (k = k0) then 1 else 0)%nat)).
Proof.
  intros He Hid. unfold processMessage.
  pose proof (process_body_once e s event d He Hid) as Hbody.
  destruct (process_body s event d) as [[s1 effs1] [u|err]].
  - destruct Hbody as [Hc [(H1 & H2 & H3 & H4 & ->)|Hmark]].
    + split; [exact Hc|]. left. cbn. auto 10.
    + split; [exact Hc|]. right. exact Hmark.
  - state_fields.
    assert (Hn : replies (if kind event =? 4
                          then fst (sendDM (bump_errors s1) d 1 ErrorNotice (pubkey event)
                                      processingErrorMsg None)
                          else []) = 0%nat /\
                 debits (if kind event =? 4
                         then fst (sendDM (bump_errors s1) d 1 ErrorNotice (pubkey event)
                                     processingErrorMsg None)
                         else []) = 0%nat).
    { destruct (kind event =? 4); [apply error_notice_counts | cbn; auto]. }
    destruct Hn as [Hr Hd]. unfold replies, debits in *. rewrite !count_app, Hr, Hd.
    destruct Hbody as [Hc [(H1 & H2 & H3 & H4 & ->)|Hmark]].
    + split; [cbn; lia|]. left. cbn. auto 10.
    + split; [lia|]. right. exact Hmark.
Qed.

Lemma deliver_replay e : forall ds s,
  e <> "" -> Forall (fun x => id (fst x) = e) ds -> marked e (db s) ->
  let '(s', effs) := deliver s ds in
  db s' = db s /\ zapDb s' = zapDb s /\ ai s' = ai s /\ breaker s' = breaker s /\
  replies effs = 0%nat /\ debits effs = 0%nat.
Proof.
  induction ds as [|[event d] ds IH]; intros s He Hall Hm; cbn [deliver].
  - cbn. auto 10.
  - apply Forall_cons in Hall as [Hid Hrest]. cbn [fst] in Hid.
    pose proof (processMessage_replay _ s event d He Hid Hm) as Hone.
    destruct (processMessage s event d) as [[s1 effs1] r1].
    destruct Hone as (H1 & H2 & H3 & H4 & Hr & Hd).
    specialize (IH s1 He Hrest). rewrite H1 in IH. specialize (IH Hm).
    destruct (deliver s1 ds) as [s2 effs2].
    destruct IH as (I1 & I2 & I3 & I4 & Ir & Id).
    unfold replies, debits in *. rewrite !count_app.
    repeat split; try congruence; lia.
Qed.

Lemma marked_dec e d : marked e d \/ ~ marked e d.
Proof.
  unfold marked. destruct (processedEvents d !! eventKey e); [left; eauto|].
  right. intros [x Hx]. discriminate.
Qed.

Lemma consistent_empty e : consistent e Database.empty.
Proof.
  assert (Hz : forall k, stored e Database.empty k = 0%nat).
  { intros k. unfold stored. cbn. rewrite lookup_empty. reflexivity. }
  split.
  - exists "". intros k. rewrite Hz. lia.
  - intros _. exact Hz.
Qed.

(** *** Consistency is kept by every run

    Whatever event is processed, the store stays consistent for [e]: the
    hypothesis of the theorem above holds in every store the bot builds
    from an empty one. *)

Lemma saveMessage_consistent e db pubkey content fromBot metadata env db' r :
  e <> "" -> consistent e db ->
  saveMessage db pubkey content fromBot metadata env = (db', r) ->
  consistent e db'.
Proof.
  intros He [Hone Hclean] Hsave.
  destruct (marked_dec e db) as [Hm|Hm].
  { destruct (saveMessage_after_mark e _ _ _ _ _ _ _ _ He Hm Hsave) as [Hm' Hst].
    split; [|contradiction].
    destruct Hone as [k0 Hk0]. exists k0. intros k.
    specialize (Hst k). specialize (Hk0 k). lia. }
  specialize (Hclean Hm).
  destruct r as [res|err].
  2: { rewrite (DatabaseFacts.saveMessage_unchanged _ _ _ _ _ _ _ _ Hsave I).
       split; [assumption | auto]. }
  destruct (duplicate res) eqn:Hdup.
  { rewrite (DatabaseFacts.saveMessage_unchanged _ _ _ _ _ _ _ _ Hsave Hdup).
    split; [assumption | auto]. }
  destruct (saveMessage_stored _ _ _ _ _ _ _ _ Hsave Hdup)
    as (key & previous & record & marker & _ & _ & _ & Hproc & _).
  destruct (saveMessage_adds e _ _ _ _ _ _ _ _ Hsave Hdup) as (k0 & Hadd).
  split.
  - exists k0. intros k. specialize (Hadd k). rewrite (Hclean k) in Hadd.
    repeat case_decide; lia.
  - intros Hm' k. specialize (Hadd k). rewrite (Hclean k) in Hadd.
    assert (Hne : nonempty (mo_eventId metadata) <> Some e).
    { intros Heq. apply Hm'. unfold marked. rewrite Hproc, Heq, lookup_insert_eq. eauto. }
    repeat case_decide; try contradiction; lia.
Qed.

Lemma finish_with_notice_consistent e s d event why text messageType sessionId before after :
  e <> "" -> consistent e (db s) ->
  consistent e (db (fst (fst (finish_with_notice s d event why text messageType sessionId
                                before after)))).
Proof.
  intros He Hc. unfold finish_with_notice.
  destruct (respond s d why event text sessionId) as [effs [eid|err]]; [|exact Hc].
  destruct (saveMessage _ _ _ _ _ _) as [db' r] eqn:Hsave.
  pose proof (saveMessage_consistent e _ _ _ _ _ _ _ _ He Hc Hsave).
  destruct r; assumption.
Qed.

Lemma answer_question_consistent e s event d messageContent userMetadata sessionId :
  e <> "" -> consistent e (db s) ->
  consistent e (db (fst (fst (answer_question s event d messageContent userMetadata
                                sessionId)))).
Proof.
  intros He Hc. unfold answer_question.
  destruct (isBalanceRequest messageContent); [apply finish_with_notice_consistent; auto|].
  cbv zeta.
  destruct (JS.num_lt _ _); [apply finish_with_notice_consistent; auto|].
  destruct (ZapDb.deductFromBalance _ _ _ _) as [zapDb1 [newBalance|]];
    [|apply finish_with_notice_consistent; auto].
  destruct (Gemini.generateResponse _ _ _ _ _) as [[b' w'] [response|]]; [|exact Hc].
  destruct (respond _ _ _ _ _ _) as [effs [responseEventId|err]]; [|exact Hc].
  destruct (saveMessage _ _ _ _ _ _) as [db2 r2] eqn:Hsave2.
  pose proof (saveMessage_consistent e _ _ _ _ _ _ _ _ He Hc Hsave2).
  destruct r2; assumption.
Qed.

Lemma processMessage_consistent e s event d :
  e <> "" -> consistent e (db s) ->
  consistent e (db (fst (fst (processMessage s event d)))).
Proof.
  intros He Hc.
  assert (Hbody : consistent e (db (fst (fst (process_body s event d))))).
  { unfold process_body. cbv beta iota zeta.
    repeat lazymatch goal with
      | |- context [fst (fst ?X)] =>
          let h := head_scrutinee X in
          lazymatch h with
          | saveMessage _ _ _ _ _ _ => fail
          | process_body _ _ _ => fail
          | answer_question _ _ _ _ _ _ => fail
          | (_, _) => fail
          | _ => destruct h eqn:?; cbv beta iota zeta
          end
      end.
    all: try exact Hc.
    all: lazymatch goal with
         | |- context [saveMessage ?a ?b ?c ?f ?g ?h] =>
             destruct (saveMessage a b c f g h) as [db1 r] eqn:Hsave;
             pose proof (saveMessage_consistent e _ _ _ _ _ _ _ _ He Hc Hsave) as Hc1
         end.
    all: destruct r as [res|err]; [|exact Hc1].
    all: destruct (duplicate res); [exact Hc1|].
    all: apply answer_question_consistent; [exact He | exact Hc1]. }
  unfold processMessage.
  destruct (process_body s event d) as [[s1 effs1] [u|err]]; exact Hbody.
Qed.

(** Deliveries of any events, in any order. *)
Lemma deliver_consistent e : forall ds s,
  e <> "" -> consistent e (db s) -> consistent e (db (fst (deliver s ds))).
Proof.
  induction ds as [|[event d] ds IH]; intros s He Hc; cbn [deliver]; [exact Hc|].
  pose proof (processMessage_consistent e s event d He Hc) as H1.
  destruct (processMessage s event d) as [[s1 effs1] r1]. cbn [fst] in H1.
  specialize (IH s1 He H1). destruct (deliver s1 ds) as [s2 effs2]. exact IH.
Qed.

(** *** Replays among other events *)

(** *** No run emits an error notice outside its [catch] block *)

Lemma respond_no_notice s d why event text sessionId :
  why <> ErrorNotice ->
  error_notices (fst (respond s d why event text sessionId)) = 0%nat.
Proof.
  intros Hwhy. unfold respond, sendDM, sendReply.
  destruct (kind event =? 4), (nip04 s), (signed d 0), why; cbn; congruence.
Qed.

Lemma finish_with_notice_no_notice s d event why text messageType sessionId before after :
  why <> ErrorNotice ->
  error_notices before = 0%nat -> error_notices after = 0%nat ->
  error_notices (snd (fst (finish_with_notice s d event why text messageType sessionId
                             before after))) = 0%nat.
Proof.
  intros Hwhy Hb Ha. unfold finish_with_notice.
  pose proof (respond_no_notice s d why event text sessionId Hwhy) as Hr.
  destruct (respond s d why event text sessionId) as [effs [eid|err]]; cbn [fst] in Hr.
  - destruct (saveMessage _ _ _ _ _ _) as [db' [res|err]]; cbn [fst snd];
      unfold error_notices in *; rewrite ?count_app; lia.
  - cbn [fst snd]. unfold error_notices in *. rewrite ?count_app. lia.
Qed.

Lemma answer_question_no_notice s event d messageContent userMetadata sessionId :
  error_notices (snd (fst (answer_question s event d messageContent userMetadata sessionId)))
  = 0%nat.
Proof.
  unfold answer_question.
  destruct (isBalanceRequest messageContent).
  { apply finish_with_notice_no_notice; [discriminate | reflexivity | reflexivity]. }
  cbv zeta.
  destruct (JS.num_lt _ _).
  { apply finish_with_notice_no_notice; [discriminate | reflexivity | reflexivity]. }
  destruct (ZapDb.deductFromBalance _ _ _ _) as [zapDb1 [newBalance|]].
  2: { apply finish_with_notice_no_notice; [discriminate | reflexivity | reflexivity]. }
  destruct (Gemini.generateResponse _ _ _ _ _) as [[b' w'] [response|]]; [|reflexivity].
  lazymatch goal with
  | |- context [respond ?s2 d Answer event response sessionId] =>
      pose proof (respond_no_notice s2 d Answer event response sessionId ltac:(discriminate))
        as Hr;
      destruct (respond s2 d Answer event response sessionId) as [effs [responseEventId|err]]
  end; cbn [fst] in Hr.
  2: { cbn [fst snd]. unfold error_notices in *. rewrite !count_app. cbn. lia. }
  destruct (saveMessage _ _ _ _ _ _) as [db2 [res2|err2]]; cbn [fst snd];
    unfold error_notices in *; rewrite !count_app; cbn; lia.
Qed.

Lemma process_body_no_notice s event d :
  error_notices (snd (fst (process_body s event d))) = 0%nat.
Proof.
  unfold process_body. cbv beta iota zeta.
  repeat lazymatch goal with
    | |- context [fst ?X] =>
        let h := head_scrutinee X in
        lazymatch h with
        | saveMessage _ _ _ _ _ _ => fail
        | process_body _ _ _ => fail
        | answer_question _ _ _ _ _ _ => fail
        | (_, _) => fail
        | _ => destruct h eqn:?; cbv beta iota zeta
        end
    end.
  all: try reflexivity.
  all: lazymatch goal with
       | |- context [saveMessage ?a ?b ?c ?f ?g ?h] =>
           destruct (saveMessage a b c f g h) as [db1 [res|err]]
       end; [|reflexivity].
  all: destruct (duplicate res); [reflexivity|].
  all: apply answer_question_no_notice.
Qed.

(** One run: an error notice is sent only by a run that throws, and then
    at most one. *)
Lemma processMessage_notices s event d :
  let '(_, effs, r) := processMessage s event d in
  (error_notices effs <= if is_resolved r then 0 else 1)%nat.
Proof.
  unfold processMessage.
  pose proof (process_body_no_notice s event d) as Hbody.
  destruct (process_body s event d) as [[s1 effs1] [u|err]]; cbn [fst snd] in Hbody.
  - cbn. lia.
  - cbn [is_resolved]. unfold error_notices in *. rewrite count_app, Hbody.
    destruct (kind event =? 4); [|cbn; lia].
    unfold sendDM. destruct (negb _); [cbn; lia|]. destruct (signed d 1); cbn; lia.
Qed.

(** *** A marked event-id stays marked, whatever event is processed *)

Lemma process_body_after_mark e s event d :
  e <> "" -> marked e (db s) ->
  let '(s', _, _) := process_body s event d in
  marked e (db s') /\ forall k, (stored e (db s') k <= stored e (db s) k)%nat.
Proof.
  intros He Hm. unfold process_body. cbv beta iota zeta.
  walk.
  all: at_leaf ltac:(cbn; auto).
  all: lazymatch goal with
       | |- context [saveMessage ?a ?b ?c ?f ?g ?h] =>
           destruct (saveMessage a b c f g h) as [db1 r] eqn:Hsave;
           destruct (saveMessage_after_mark e _ _ _ _ _ _ _ _ He Hm Hsave) as [Hm1 Hst1]
       end.
  all: state_fields.
  all: destruct r as [res|err]; cbv beta iota zeta; [|state_fields; auto].
  all: destruct (duplicate res); [state_fields; auto|].
  all: lazymatch goal with
       | |- context [answer_question ?s1 ?ev ?dl ?mc ?um ?sid] =>
           pose proof (answer_question_spec e s1 ev dl mc um sid He Hm1) as Hspec;
           destruct (answer_question s1 ev dl mc um sid) as [[s' effs] r']
       end.
  all: destruct Hspec as (Hm' & Hst & _).
  all: split; [exact Hm'|]; intros k; specialize (Hst k); specialize (Hst1 k);
       cbn [db set_db set_processedMessages] in Hst, Hst1; lia.
Qed.

Lemma processMessage_after_mark e s event d :
  e <> "" -> marked e (db s) ->
  let '(s', _, _) := processMessage s event d in
  marked e (db s') /\ forall k, (stored e (db s') k <= stored e (db s) k)%nat.
Proof.
  intros He Hm. unfold processMessage.
  pose proof (process_body_after_mark e s event d He Hm) as Hbody.
  destruct (process_body s event d) as [[s1 effs1] [u|err]]; exact Hbody.
Qed.


Lemma emitted_for_cons e s event d rest :
  emitted_for e s ((event, d) :: rest) =
    let '(s1, effs, _) := processMessage s event d in
    ((if String.eqb (id event) e then effs else []) ++ emitted_for e s1 rest)%list.
Proof.
  unfold emitted_for. cbn [runs].
  destruct (processMessage s event d) as [[s1 effs] r]. cbn [List.filter].
  unfold of_event at 1. cbn [run_event].
  destruct (String.eqb (id event) e); reflexivity.
Qed.

Lemma failed_runs_cons e s event d rest :
  failed_runs e s ((event, d) :: rest) =
    let '(s1, _, r) := processMessage s event d in
    ((if String.eqb (id event) e && negb (is_resolved r) then 1 else 0)
     + failed_runs e s1 rest)%nat.
Proof.
  unfold failed_runs. cbn [runs].
  destruct (processMessage s event d) as [[s1 effs] r]. cbn [List.filter].
  unfold of_event at 1, threw at 1. cbn [run_event run_outcome].
  destruct (String.eqb (id event) e && negb (is_resolved r)); reflexivity.
Qed.

Lemma deliver_cons s event d rest :
  fst (deliver s ((event, d) :: rest)) = fst (deliver (fst (fst (processMessage s event d))) rest).
Proof.
  cbn [deliver]. destruct (processMessage s event d) as [[s1 effs] r].
  cbn [fst]. destruct (deliver s1 rest). reflexivity.
Qed.

(** Deliveries of any events, in any order, seen from one event-id. *)
Lemma interleaved_runs e : forall ds s,
  e <> "" -> consistent e (db s) ->
  let s' := fst (deliver s ds) in
  let effs := emitted_for e s ds in
  consistent e (db s') /\
  (replies effs <= 1)%nat /\ (debits effs <= 1)%nat /\
  (error_notices effs <= failed_runs e s ds)%nat /\
  ((0 < replies effs + debits effs)%nat -> marked e (db s')) /\
  (marked e (db s) ->
     marked e (db s') /\ (forall k, (stored e (db s') k <= stored e (db s) k)%nat) /\
     replies effs = 0%nat /\ debits effs = 0%nat).
Proof.
  induction ds as [|[event d] ds IH]; intros s He Hc; cbv zeta.
  - cbn. destruct Hc as [Hone Hclean].
    repeat split; auto; lia.
  - pose proof (processMessage_consistent e s event d He Hc) as Hc1.
    pose proof (processMessage_after_mark e s event d He) as Hkeep.
    pose proof (processMessage_notices s event d) as Hnote.
    pose proof (processMessage_once e s event d He) as Hfirst.
    pose proof (processMessage_replay e s event d He) as Hsame.
    rewrite emitted_for_cons, failed_runs_cons, deliver_cons.
    destruct (processMessage s event d) as [[s1 effs1] r1]. cbn [fst] in *.
    specialize (IH s1 He Hc1). cbv zeta in IH.
    destruct IH as (I1 & I2 & I3 & I4 & I5 & I6).
    split; [exact I1|].
    unfold replies, debits, error_notices in *.
    destruct (String.eqb_spec (id event) e) as [Hid|Hid]; cbn [andb];
      rewrite ?count_app; cbn [count app Nat.add].
    + destruct (Hfirst Hid) as [[Hr1 Hd1] Hcases]. specialize (Hsame Hid).
      assert (Hn : (count is_error_notice effs1 <= if negb (is_resolved r1) then 1 else 0)%nat).
      { destruct (is_resolved r1); exact Hnote. }
      destruct Hcases as [(H1 & H2 & H3 & H4 & Hr0 & Hd0) | [Hm1 (k0 & Hk0)]].
      * rewrite H1 in *. rewrite Hr0, Hd0.
        split; [lia|]. split; [lia|]. split; [lia|]. split; [exact I5|].
        intros Hm. exact (I6 Hm).
      * destruct (I6 Hm1) as (Hm2 & Hst2 & Hr2 & Hd2). rewrite Hr2, Hd2.
        split; [lia|]. split; [lia|]. split; [lia|]. split; [intros _; exact Hm2|].
        intros Hm. destruct (Hsame Hm) as (E1 & _ & _ & _ & Hr0 & Hd0).
        rewrite E1 in *. rewrite Hr0, Hd0. auto.
    + split; [exact I2|]. split; [exact I3|]. split; [exact I4|]. split; [exact I5|].
      intros Hm. destruct (Hkeep Hm) as [Hm1 Hst1].
      destruct (I6 Hm1) as (Hm2 & Hst2 & Hr2 & Hd2).
      split; [exact Hm2|]. split; [|auto].
      intros k. specialize (Hst1 k). specialize (Hst2 k). lia.
Qed.

(** C2, as amended: idempotency per event-id.  Take any event-id [e] (a
    non-empty string) and any store that holds at most one record for
    [e], none while [e] is unmarked (true of the empty store, and kept by
    every run).  Process any list of deliveries, one after the other:
    deliveries of events with id [e], any number of them, among
    deliveries of any other events.  Then, counting what the runs on [e]
    emitted:
    - all session logs together hold at most one message record whose
      source event-id is [e], and the store is consistent again;
    - at most one reply was sent and at most one debit taken, where a
      reply is any message of the bot but the error notice of the [catch]
      block;
    - error notices were sent at most once per run on [e] that threw, so
      the bot's messages number at most one plus those runs;
    - if a reply was sent or a debit taken, [e] is marked processed;
    - and when [e] was marked from the start: every attempt to save a
      message under [e] returns [duplicate] and leaves the store alone;
      [e] is still marked at the end and no record was added for it; the
      runs on [e] sent no reply and took no debit; and when all the
      deliveries are of [e], the store, the balances and the AI client
      are left untouched. *)
Theorem one_reply_one_debit_per_event
    (e : string) (s : State) (ds : list (Event * Delivery)) :
  e <> "" ->
  consistent e (db s) ->
  let s' := fst (deliver s ds) in
  let effs := emitted_for e s ds in
  (Forall (fun x => id (fst x) = e) ds -> effs = snd (deliver s ds)) /\
  at_most_one e (db s') /\
  consistent e (db s') /\
  (replies effs <= 1)%nat /\
  (debits effs <= 1)%nat /\
  (error_notices effs <= failed_runs e s ds)%nat /\
  (messages effs <= 1 + failed_runs e s ds)%nat /\
  ((0 < replies effs + debits effs)%nat -> marked e (db s')) /\
  (marked e (db s) ->
     (forall pubkey content fromBot metadata env,
        mo_eventId metadata = Some e -> sanitizePubkey pubkey <> "" ->
        exists res,
          saveMessage (db s) pubkey content fromBot metadata env = (db s, Resolved res) /\
          duplicate res = true) /\
     marked e (db s') /\
     (forall k, (stored e (db s') k <= stored e (db s) k)%nat) /\
     replies effs = 0%nat /\ debits effs = 0%nat /\
     (Forall (fun x => id (fst x) = e) ds ->
        db s' = db s /\ zapDb s' = zapDb s /\ ai s' = ai s /\ breaker s' = breaker s)).
Proof.
  intros He Hc s' effs.
  pose proof (interleaved_runs e ds s He Hc) as Hruns. cbv zeta in Hruns.
  fold s' effs in Hruns.
  destruct Hruns as (Hc' & Hr & Hd & Hn & Hmark & Hreplay).
  split; [intros Hall; apply emitted_for_all, Hall|].
  split; [exact (proj1 Hc')|]. split; [exact Hc'|].
  split; [exact Hr|]. split; [exact Hd|]. split; [exact Hn|].
  split; [rewrite messages_split; lia|].
  split; [exact Hmark|].
  intros Hm. destruct (Hreplay Hm) as (Hm' & Hst & Hr0 & Hd0).
  split.
  { intros pubkey content fromBot metadata env Hid Hp.
    destruct (saveMessage (db s) pubkey content fromBot metadata env) as [db' r] eqn:Hsave.
    destruct (saveMessage_replay e _ _ _ _ _ _ _ _ He Hm Hid Hsave) as [-> Hdup].
    destruct r as [res|err]; [eauto | contradiction]. }
  split; [exact Hm'|]. split; [exact Hst|]. split; [exact Hr0|]. split; [exact Hd0|].
  intros Hall. pose proof (deliver_replay e ds s He Hall Hm) as Hsame.
  unfold s'. destruct (deliver s ds) as [s2 effs2]. cbn [fst].
  destruct Hsame as (H1 & H2 & H3 & H4 & _). auto.
Qed.

(** *** The debit is checked before the AI call *)

Lemma finish_with_notice_accounts s d event why text messageType sessionId before after :
  let '(s', effs, _) :=
    finish_with_notice s d event why text messageType sessionId before after in
  zapDb s' = zapDb s /\ ai s' = ai s /\ breaker s' = breaker s /\
  (debits before = 0%nat -> debits after = 0%nat -> debits effs = 0%nat).
Proof.
  unfold finish_with_notice.
  assert (Hd : debits (fst (respond s d why event text sessionId)) = 0%nat).
  { unfold respond, sendDM, sendReply.
    destruct (kind event =? 4), (nip04 s), (signed d 0); reflexivity. }
  destruct (respond s d why event text sessionId) as [effs [eid|err]]; cbn [fst] in Hd.
  - destruct (saveMessage _ _ _ _ _ _) as [db' [res|err]]; state_fields;
      unfold debits in *; rewrite ?count_app; repeat split; auto; lia.
  - unfold debits in *. rewrite ?count_app. repeat split; auto; lia.
Qed.

(** A request that the balance does not cover is answered with the
    insufficient-funds notice: no debit is taken and the AI client is not
    called. *)
Lemma insufficient_balance_stops s event d messageContent userMetadata sessionId :
  isBalanceRequest messageContent = false ->
  JS.num_lt (ZapDb.getBalance (zapDb s) (pubkey event))
            (JS.Num (if kind event =? 4 then 1 else 2)) = true ->
  let '(s', effs, _) := answer_question s event d messageContent userMetadata sessionId in
  zapDb s' = zapDb s /\ ai s' = ai s /\ breaker s' = breaker s /\ debits effs = 0%nat.
Proof.
  intros Hb Hlt. unfold answer_question. rewrite Hb. cbv zeta. rewrite Hlt.
  match goal with
  | |- context [finish_with_notice s d event ?w ?t ?m sessionId ?b ?a] =>
      pose proof (finish_with_notice_accounts s d event w t m sessionId b a) as H;
      destruct (finish_with_notice s d event w t m sessionId b a) as [[s' effs] r]
  end.
  destruct H as (H1 & H2 & H3 & H4). repeat split; auto.
Qed.

(** The bot with an empty session store; p1 holds 50 sats. *)
Definition start_state : State :=
  mkState true Database.empty AccountingFacts.fifty ∅ (Gemini.new_breaker 0)
    GeminiFacts.fresh_world 0.

Definition dm : Event :=
  mkEvent "e1" "p1" 4 1700000000 [["p"; "bot"]; ["session"; "s1"]] "<ciphertext>".

(** The surroundings of one run: the DM decrypts to "Hello", the model
    answers, signing succeeds. *)
Definition calm : Delivery :=
  mkDelivery (Resolved "Hello") None 2000 2000
    (mkSaveEnv 2001 2002 2003 "0123456789abcdef") (mkSaveEnv 2010 2011 2012 "0123456789abcdef") 2005
    (fun _ _ => Some (Resolved "Hi there!", 300)) (fun _ => O)
    (fun n => Resolved (match n with O => "reply1" | S _ => "notice1" end)).

(** A public mention from a principal without funds. *)
Definition mention : Event := mkEvent "e2" "p2" 1 1700000000 [["p"; "bot"]] "hi".

Example insufficient_funds_scenario :
  let '(s', effs, r) := processMessage start_state mention calm in
  effs = [PublicReply InsufficientFunds "e2" "p2"
            (insufficientBalanceMsg (JS.Num 0) 2 1);
          BalanceResponse "p2" (JS.Num 0)] /\
  r = Resolved tt /\ zapDb s' = zapDb start_state /\
  Gemini.remote_calls (ai s') = 0%nat.
Proof. vm_compute. auto 10. Qed.

(** *** The dedup scenario of the specification *)

Definition twice : list (Event * Delivery) := [(dm, calm); (dm, calm)].

(** The same DM delivered twice: one debit of 1 sat, one reply, one AI
    call, one pair of log entries. *)
Example dedup_scenario :
  let '(s', effs) := deliver start_state twice in
  effs = [Debit "p1" 1; DM Answer "p1" "Hi there!" (Some "s1");
          BalanceResponse "p1" (JS.Num 49)] /\
  ZapDb.getBalance (zapDb s') "p1" = JS.Num 49 /\
  Gemini.remote_calls (ai s') = 1%nat /\
  (message <$> default [] (logs (db s') !! messagesKey "p1" "s1")) = ["Hello"; "Hi there!"] /\
  stored "e1" (db s') (messagesKey "p1" "s1") = 1%nat.
Proof. vm_compute. auto 10. Qed.

(** After a restart the in-memory fingerprints are gone; the store alone
    stops the replay. *)
Example replay_after_restart :
  let s1 := set_processedMessages (fst (deliver start_state [(dm, calm)])) ∅ in
  let '(s2, effs, r) := processMessage s1 dm calm in
  effs = [] /\ r = Resolved tt /\ db s2 = db s1 /\ zapDb s2 = zapDb s1 /\ ai s2 = ai s1.
Proof. vm_compute. auto 10. Qed.

(** The DM whose decryption throws. *)
Definition garbled : Delivery :=
  mkDelivery (Rejected "invalid ciphertext") (profile calm) (now_seen calm) (now_sweep calm)
    (save_question calm) (save_answer calm) (now_debit calm) (remote calm)
    (random_index calm) (signed calm).

(** The three attempts the queue makes for a task that throws. *)
Definition three_attempts : list (Event * Delivery) :=
  [(dm, garbled); (dm, garbled); (dm, garbled)].

(** C2, counterexample to the claim as stated: a DM that cannot be
    decrypted throws at each of the queue's three attempts, and each
    attempt sends the error notice of the [catch] block.  The three
    deliveries of the one event-id produce three messages of the bot. *)
Lemma error_notice_at_every_attempt :
  Forall (fun x => id (fst x) = "e1") three_attempts /\
  snd (deliver start_state three_attempts)
    = [DM ErrorNotice "p1" processingErrorMsg None;
       DM ErrorNotice "p1" processingErrorMsg None;
       DM ErrorNotice "p1" processingErrorMsg None] /\
  messages (snd (deliver start_state three_attempts)) = 3%nat /\
  errors (fst (deliver start_state three_attempts)) = 3.
Proof. split; [repeat constructor|]. vm_compute. auto. Qed.

(** A DM that first cannot be decrypted, then is processed, then comes
    again twice, the last time garbled, with a public mention of another
    principal in between. *)
Definition mixed : list (Event * Delivery) :=
  [(dm, garbled); (dm, calm); (mention, calm); (dm, calm); (dm, garbled)].

(** The idempotency theorem at the mixed deliveries: the runs on e1
    emitted one error notice for each of the two runs that threw, one
    debit and one answer; the log holds one record for e1, which is
    marked. *)
Lemma one_reply_one_debit_witness :
  emitted_for "e1" start_state mixed
    = [DM ErrorNotice "p1" processingErrorMsg None;
       Debit "p1" 1; DM Answer "p1" "Hi there!" (Some "s1"); BalanceResponse "p1" (JS.Num 49);
       DM ErrorNotice "p1" processingErrorMsg None] /\
  failed_runs "e1" start_state mixed = 2%nat /\
  at_most_one "e1" (db (fst (deliver start_state mixed))) /\
  (replies (emitted_for "e1" start_state mixed) <= 1)%nat /\
  (debits (emitted_for "e1" start_state mixed) <= 1)%nat /\
  (messages (emitted_for "e1" start_state mixed) <= 3)%nat /\
  marked "e1" (db (fst (deliver start_state mixed))).
Proof.
  assert (He : "e1" <> "") by discriminate.
  assert (Hc : consistent "e1" (db start_state)) by apply consistent_empty.
  pose proof (one_reply_one_debit_per_event "e1" start_state mixed He Hc) as H.
  cbv zeta in H.
  destruct H as (_ & Hone & _ & Hr & Hd & _ & Hmsg & Hmark & _).
  assert (Hfail : failed_runs "e1" start_state mixed = 2%nat) by (vm_compute; reflexivity).
  split; [vm_compute; reflexivity|]. split; [exact Hfail|].
  split; [exact Hone|]. split; [exact Hr|]. split; [exact Hd|].
  split; [rewrite Hfail in Hmsg; exact Hmsg|].
  apply Hmark. vm_compute. lia.
Defined.

End ProcessorFacts.
